(** * Replay DOM inspection: the inspect button and its query modal

    A shallow embedding of

    - [static/app/components/replays/replayDOMInspectButton.tsx]
    - [static/app/components/replays/replayInspectQueryModal.tsx]

    JavaScript strings are sequences of UTF-16 code units; the component's
    React state, its refs, the part of the DOM it touches and the calls it
    makes to its collaborators are threaded explicitly through a [state]
    record. *)

From Stdlib Require Import List ZArith NArith Bool Lia Ascii String.
Import ListNotations.

Set Implicit Arguments.

(** ** JavaScript strings *)

Module JS.

Definition code_unit := N.
Definition jsstring := list code_unit.

(** A source literal, code unit by code unit. *)
Definition lit (s : string) : jsstring :=
  map N_of_ascii (list_ascii_of_string s).

(** [s.length] *)
Definition length (s : jsstring) : Z := Z.of_nat (List.length s).

(** [a + b] on strings *)
Definition concat (a b : jsstring) : jsstring := a ++ b.

(** [a === b] on strings *)
Fixpoint eqb (a b : jsstring) : bool :=
  match a, b with
  | [], [] => true
  | x :: a', y :: b' => N.eqb x y && eqb a' b'
  | _, _ => false
  end.

(** A string in a boolean position: only the empty string is falsy. *)
Definition truthy (s : jsstring) : bool :=
  match s with [] => false | _ :: _ => true end.

(** [String.prototype.slice(start, end)]: negative indices count from the
    end, both are clamped to the string, an empty range gives the empty
    string. *)
Definition slice (start end_ : Z) (s : jsstring) : jsstring :=
  let len := length s in
  let from := if (start <? 0)%Z then Z.max (len + start) 0 else Z.min start len in
  let to := if (end_ <? 0)%Z then Z.max (len + end_) 0 else Z.min end_ len in
  if (from >=? to)%Z then []
  else firstn (Z.to_nat (to - from)) (skipn (Z.to_nat from) s).

(** The code units [String.prototype.trim] strips: WhiteSpace and
    LineTerminator of ECMAScript. *)
Definition isWhiteSpace (c : code_unit) : bool :=
  (N.eqb c 0x9 || N.eqb c 0xA || N.eqb c 0xB || N.eqb c 0xC || N.eqb c 0xD
   || N.eqb c 0x20 || N.eqb c 0xA0 || N.eqb c 0x1680
   || (N.leb 0x2000 c && N.leb c 0x200A)
   || N.eqb c 0x2028 || N.eqb c 0x2029 || N.eqb c 0x202F || N.eqb c 0x205F
   || N.eqb c 0x3000 || N.eqb c 0xFEFF)%N.

Fixpoint trimStart (s : jsstring) : jsstring :=
  match s with
  | c :: s' => if isWhiteSpace c then trimStart s' else s
  | [] => []
  end.

Definition trimEnd (s : jsstring) : jsstring := rev (trimStart (rev s)).

(** [String.prototype.trim] *)
Definition trim (s : jsstring) : jsstring := trimEnd (trimStart s).

End JS.

Abbreviation jsstring := JS.jsstring.
Infix "+++" := JS.concat (at level 60, right associativity).

(** ** The query modal ([replayInspectQueryModal.tsx]) *)

Module ReplayInspectQueryModal.

(** What a submit handler does to the outside: the calls on the form event
    and on the [onSubmit] prop. *)
Inductive call :=
| PreventDefault
| OnSubmit (query : jsstring).

(** [handleSubmit], with the [query] state of the render it closes over.
    The result is the sequence of calls it makes. *)
Definition handleSubmit (query : jsstring) : list call :=
  [PreventDefault]
  ++ (if JS.truthy (JS.trim query) then [OnSubmit (JS.trim query)] else []).

(** [htmlPreview] *)
Definition htmlPreview (selectedHtml : jsstring) : jsstring :=
  if (JS.length selectedHtml >? 200)%Z
  then JS.slice 0 200 selectedHtml +++ JS.lit "..."
  else selectedHtml.

(** The [disabled] prop of the submit button. *)
Definition submitDisabled (query : jsstring) : bool :=
  negb (JS.truthy (JS.trim query)).

(** *** The modal over time *)

(** What the user can do to the open modal: type into the input
    ([onChange], which stores [e.target.value] with [setQuery]), submit the
    form ([handleSubmit]), or press Cancel ([closeModal]). *)
Inductive input :=
| Change (value : jsstring)
| Submit
| Cancel.

(** What the modal calls in return: a call of [handleSubmit], or the
    [closeModal] prop. *)
Inductive action :=
| Call (c : call)
| CloseModal.

(** One input on the [query] state: the next [query] and the calls made. *)
Definition modalStep (i : input) (query : jsstring) : jsstring * list action :=
  match i with
  | Change value => (value, [])
  | Submit => (query, map Call (handleSubmit query))
  | Cancel => (query, [CloseModal])
  end.

(** The [query] after a sequence of inputs. *)
Definition queryAfter (inputs : list input) (query : jsstring) : jsstring :=
  fold_left (fun q i => fst (modalStep i q)) inputs query.

(** The calls made along a sequence of inputs, oldest first. *)
Fixpoint modalRun (inputs : list input) (query : jsstring) : list action :=
  match inputs with
  | [] => []
  | i :: rest => snd (modalStep i query) ++ modalRun rest (fst (modalStep i query))
  end.

(** [useState('')] *)
Definition initialQuery : jsstring := [].

End ReplayInspectQueryModal.

(** ** The inspect button ([replayDOMInspectButton.tsx]) *)

Module ReplayDOMInspectButton.

(** *** The DOM the component touches *)

(** Documents are told apart by a number; the nodes an event can name as
    its target are a document's [body], its [documentElement], or any other
    element of it. *)
Definition document := nat.

Inductive node :=
| Body (d : document)
| DocumentElement (d : document)
| Element (d : document) (n : nat).

Definition node_eqb (a b : node) : bool :=
  match a, b with
  | Body d, Body d' => Nat.eqb d d'
  | DocumentElement d, DocumentElement d' => Nat.eqb d d'
  | Element d n, Element d' n' => Nat.eqb d d' && Nat.eqb n n'
  | _, _ => false
  end.

(** [a === b] on values that are a node or [null]. *)
Definition target_eqb (a b : option node) : bool :=
  match a, b with
  | Some x, Some y => node_eqb x y
  | None, None => true
  | _, _ => false
  end.

(** The iframe handed out by [getReplayIframe()]; its [contentDocument] can
    be [null]. *)
Record iframe := { contentDocument : option document }.

(** [iframe?.contentDocument] for the result of [getReplayIframe()]. *)
Definition contentDocumentOf (f : option iframe) : option document :=
  match f with
  | Some i => contentDocument i
  | None => None
  end.

Inductive eventTarget :=
| IframeDocument (d : document)
| ParentDocument.

Inductive eventType := mouseover | mouseout | click | keydown.

(** The four functions the effect declares. *)
Inductive handlerName := HandleMouseOver | HandleMouseOut | HandleClick | HandleKeyDown.

(** A registered callback is either one of the closures created by a run of
    the effect (each run creates new function objects, closing over the
    [doc] of that run), or a function of some other code. *)
Inductive callback :=
| Closure (fn : handlerName) (doc : document) (run : nat)
| Foreign (id : nat).

Record listener := {
  l_target : eventTarget;
  l_type : eventType;
  l_callback : callback;
  l_capture : bool
}.

Definition eventTarget_eqb (a b : eventTarget) : bool :=
  match a, b with
  | IframeDocument d, IframeDocument d' => Nat.eqb d d'
  | ParentDocument, ParentDocument => true
  | _, _ => false
  end.

Definition eventType_eqb (a b : eventType) : bool :=
  match a, b with
  | mouseover, mouseover | mouseout, mouseout | click, click | keydown, keydown => true
  | _, _ => false
  end.

Definition handlerName_eqb (a b : handlerName) : bool :=
  match a, b with
  | HandleMouseOver, HandleMouseOver | HandleMouseOut, HandleMouseOut
  | HandleClick, HandleClick | HandleKeyDown, HandleKeyDown => true
  | _, _ => false
  end.

Definition callback_eqb (a b : callback) : bool :=
  match a, b with
  | Closure f d r, Closure f' d' r' =>
      handlerName_eqb f f' && Nat.eqb d d' && Nat.eqb r r'
  | Foreign i, Foreign i' => Nat.eqb i i'
  | _, _ => false
  end.

Definition listener_eqb (a b : listener) : bool :=
  eventTarget_eqb (l_target a) (l_target b)
  && eventType_eqb (l_type a) (l_type b)
  && callback_eqb (l_callback a) (l_callback b)
  && Bool.eqb (l_capture a) (l_capture b).

(** [target.addEventListener(type, callback, capture)] on the listener
    list: a listener equal in target, type, callback and capture flag is
    not added twice. *)
Definition addEventListener (t : eventTarget) (ty : eventType) (cb : callback)
    (capture : bool) (ls : list listener) : list listener :=
  let l := {| l_target := t; l_type := ty; l_callback := cb; l_capture := capture |} in
  if existsb (listener_eqb l) ls then ls else ls ++ [l].

Fixpoint removeListener (l : listener) (ls : list listener) : list listener :=
  match ls with
  | [] => []
  | x :: ls' => if listener_eqb l x then ls' else x :: removeListener l ls'
  end.

(** [target.removeEventListener(type, callback, capture)] *)
Definition removeEventListener (t : eventTarget) (ty : eventType) (cb : callback)
    (capture : bool) (ls : list listener) : list listener :=
  removeListener {| l_target := t; l_type := ty; l_callback := cb; l_capture := capture |} ls.

(** An event object, as far as the handlers read it. *)
Record event := {
  e_type : eventType;
  e_target : option node;
  e_key : jsstring
}.

(** Calls the component makes on its collaborators and on event objects. *)
Inductive call :=
| TogglePlayPause (play : bool)
| OpenModal (selectedHtml : jsstring)
| CloseModal
| OpenSeerExplorer (startNewRun : bool) (initialMessage : jsstring)
| PreventDefault
| StopPropagation
| StopImmediatePropagation.

(** *** State *)

(** The browser's CSS engine, as far as this code meets it. Assigning a
    string to [style.cssText] has it parsed into declarations, and reading
    [style.cssText] writes the declarations out again: [reserialize v] is
    what reads back once [v] was assigned. What reads back is in the
    engine's own form already: assigned again, it reads back unchanged. *)
Record cssom := {
  reserialize : jsstring -> jsstring;
  reserialize_stable : forall v, reserialize (reserialize v) = reserialize v
}.

(** In a browser [style.cursor] is one of the declarations of the body's
    inline style. It is kept here by itself, in [bodyCursor], apart from
    the inline style text: the component sets it on the body of the
    iframe's document only, the handlers registered on a document never
    touch the [cssText] of that document's body, and what is stated below
    about the styles of the page as a whole is stated of the nodes other
    than bodies. *)
Record state := {
  (* React state *)
  isInspecting : bool;
  (* refs: the [.current] of each *)
  wasPlayingRef : bool;
  previousHighlightRef : option node;
  previousStyleRef : jsstring;
  (* replay context: [getReplayIframe()], [isPlaying] *)
  replayIframe : option iframe;
  isPlaying : bool;
  (* DOM: the CSS engine; per node the text its inline style was last given
     ([styleAttr]); [doc.body.style.cursor]; how the DOM writes a node out as
     markup, given what each node's [style.cssText] reads ([markup]); the
     registered event listeners *)
  engine : cssom;
  styleAttr : node -> jsstring;
  bodyCursor : document -> jsstring;
  markup : (node -> jsstring) -> node -> jsstring;
  listeners : list listener;
  (* React's bookkeeping for the effect: the cleanup returned by its last run
     (the [doc] and the handlers of which run it closes over), the value of
     [isInspecting] that run saw, whether another dependency has changed
     since, and the number of the next run *)
  effectCleanup : option (document * nat);
  effectDep : bool;
  depsChanged : bool;
  nextRun : nat;
  (* calls made so far, oldest first *)
  calls : list call
}.

Definition set_isInspecting (v : bool) (s : state) : state :=
  {| isInspecting := v; wasPlayingRef := wasPlayingRef s;
     previousHighlightRef := previousHighlightRef s;
     previousStyleRef := previousStyleRef s; replayIframe := replayIframe s;
     isPlaying := isPlaying s; engine := engine s; styleAttr := styleAttr s;
     bodyCursor := bodyCursor s; markup := markup s;
     listeners := listeners s; effectCleanup := effectCleanup s;
     effectDep := effectDep s; depsChanged := depsChanged s;
     nextRun := nextRun s; calls := calls s |}.

Definition set_wasPlayingRef (v : bool) (s : state) : state :=
  {| isInspecting := isInspecting s; wasPlayingRef := v;
     previousHighlightRef := previousHighlightRef s;
     previousStyleRef := previousStyleRef s; replayIframe := replayIframe s;
     isPlaying := isPlaying s; engine := engine s; styleAttr := styleAttr s;
     bodyCursor := bodyCursor s; markup := markup s;
     listeners := listeners s; effectCleanup := effectCleanup s;
     effectDep := effectDep s; depsChanged := depsChanged s;
     nextRun := nextRun s; calls := calls s |}.

Definition set_previousHighlightRef (v : option node) (s : state) : state :=
  {| isInspecting := isInspecting s; wasPlayingRef := wasPlayingRef s;
     previousHighlightRef := v; previousStyleRef := previousStyleRef s;
     replayIframe := replayIframe s; isPlaying := isPlaying s;
     engine := engine s; styleAttr := styleAttr s;
     bodyCursor := bodyCursor s; markup := markup s;
     listeners := listeners s; effectCleanup := effectCleanup s;
     effectDep := effectDep s; depsChanged := depsChanged s;
     nextRun := nextRun s; calls := calls s |}.

Definition set_previousStyleRef (v : jsstring) (s : state) : state :=
  {| isInspecting := isInspecting s; wasPlayingRef := wasPlayingRef s;
     previousHighlightRef := previousHighlightRef s; previousStyleRef := v;
     replayIframe := replayIframe s; isPlaying := isPlaying s;
     engine := engine s; styleAttr := styleAttr s;
     bodyCursor := bodyCursor s; markup := markup s;
     listeners := listeners s; effectCleanup := effectCleanup s;
     effectDep := effectDep s; depsChanged := depsChanged s;
     nextRun := nextRun s; calls := calls s |}.

Definition set_replayIframe (v : option iframe) (s : state) : state :=
  {| isInspecting := isInspecting s; wasPlayingRef := wasPlayingRef s;
     previousHighlightRef := previousHighlightRef s;
     previousStyleRef := previousStyleRef s; replayIframe := v;
     isPlaying := isPlaying s; engine := engine s; styleAttr := styleAttr s;
     bodyCursor := bodyCursor s; markup := markup s;
     listeners := listeners s; effectCleanup := effectCleanup s;
     effectDep := effectDep s; depsChanged := depsChanged s;
     nextRun := nextRun s; calls := calls s |}.

Definition set_isPlaying (v : bool) (s : state) : state :=
  {| isInspecting := isInspecting s; wasPlayingRef := wasPlayingRef s;
     previousHighlightRef := previousHighlightRef s;
     previousStyleRef := previousStyleRef s; replayIframe := replayIframe s;
     isPlaying := v; engine := engine s; styleAttr := styleAttr s;
     bodyCursor := bodyCursor s; markup := markup s;
     listeners := listeners s; effectCleanup := effectCleanup s;
     effectDep := effectDep s; depsChanged := depsChanged s;
     nextRun := nextRun s; calls := calls s |}.

Definition set_styleAttr (v : node -> jsstring) (s : state) : state :=
  {| isInspecting := isInspecting s; wasPlayingRef := wasPlayingRef s;
     previousHighlightRef := previousHighlightRef s;
     previousStyleRef := previousStyleRef s; replayIframe := replayIframe s;
     isPlaying := isPlaying s; engine := engine s; styleAttr := v;
     bodyCursor := bodyCursor s; markup := markup s;
     listeners := listeners s; effectCleanup := effectCleanup s;
     effectDep := effectDep s; depsChanged := depsChanged s;
     nextRun := nextRun s; calls := calls s |}.

Definition set_bodyCursor (v : document -> jsstring) (s : state) : state :=
  {| isInspecting := isInspecting s; wasPlayingRef := wasPlayingRef s;
     previousHighlightRef := previousHighlightRef s;
     previousStyleRef := previousStyleRef s; replayIframe := replayIframe s;
     isPlaying := isPlaying s; engine := engine s; styleAttr := styleAttr s;
     bodyCursor := v; markup := markup s; listeners := listeners s;
     effectCleanup := effectCleanup s; effectDep := effectDep s;
     depsChanged := depsChanged s; nextRun := nextRun s; calls := calls s |}.

Definition set_listeners (v : list listener) (s : state) : state :=
  {| isInspecting := isInspecting s; wasPlayingRef := wasPlayingRef s;
     previousHighlightRef := previousHighlightRef s;
     previousStyleRef := previousStyleRef s; replayIframe := replayIframe s;
     isPlaying := isPlaying s; engine := engine s; styleAttr := styleAttr s;
     bodyCursor := bodyCursor s; markup := markup s; listeners := v;
     effectCleanup := effectCleanup s; effectDep := effectDep s;
     depsChanged := depsChanged s; nextRun := nextRun s; calls := calls s |}.

Definition set_effectCleanup (v : option (document * nat)) (s : state) : state :=
  {| isInspecting := isInspecting s; wasPlayingRef := wasPlayingRef s;
     previousHighlightRef := previousHighlightRef s;
     previousStyleRef := previousStyleRef s; replayIframe := replayIframe s;
     isPlaying := isPlaying s; engine := engine s; styleAttr := styleAttr s;
     bodyCursor := bodyCursor s; markup := markup s;
     listeners := listeners s; effectCleanup := v; effectDep := effectDep s;
     depsChanged := depsChanged s; nextRun := nextRun s; calls := calls s |}.

Definition set_effectDep (v : bool) (s : state) : state :=
  {| isInspecting := isInspecting s; wasPlayingRef := wasPlayingRef s;
     previousHighlightRef := previousHighlightRef s;
     previousStyleRef := previousStyleRef s; replayIframe := replayIframe s;
     isPlaying := isPlaying s; engine := engine s; styleAttr := styleAttr s;
     bodyCursor := bodyCursor s; markup := markup s;
     listeners := listeners s; effectCleanup := effectCleanup s;
     effectDep := v; depsChanged := depsChanged s; nextRun := nextRun s;
     calls := calls s |}.

Definition set_depsChanged (v : bool) (s : state) : state :=
  {| isInspecting := isInspecting s; wasPlayingRef := wasPlayingRef s;
     previousHighlightRef := previousHighlightRef s;
     previousStyleRef := previousStyleRef s; replayIframe := replayIframe s;
     isPlaying := isPlaying s; engine := engine s; styleAttr := styleAttr s;
     bodyCursor := bodyCursor s; markup := markup s;
     listeners := listeners s; effectCleanup := effectCleanup s;
     effectDep := effectDep s; depsChanged := v; nextRun := nextRun s;
     calls := calls s |}.

Definition set_nextRun (v : nat) (s : state) : state :=
  {| isInspecting := isInspecting s; wasPlayingRef := wasPlayingRef s;
     previousHighlightRef := previousHighlightRef s;
     previousStyleRef := previousStyleRef s; replayIframe := replayIframe s;
     isPlaying := isPlaying s; engine := engine s; styleAttr := styleAttr s;
     bodyCursor := bodyCursor s; markup := markup s;
     listeners := listeners s; effectCleanup := effectCleanup s;
     effectDep := effectDep s; depsChanged := depsChanged s; nextRun := v;
     calls := calls s |}.

Definition set_calls (v : list call) (s : state) : state :=
  {| isInspecting := isInspecting s; wasPlayingRef := wasPlayingRef s;
     previousHighlightRef := previousHighlightRef s;
     previousStyleRef := previousStyleRef s; replayIframe := replayIframe s;
     isPlaying := isPlaying s; engine := engine s; styleAttr := styleAttr s;
     bodyCursor := bodyCursor s; markup := markup s;
     listeners := listeners s; effectCleanup := effectCleanup s;
     effectDep := effectDep s; depsChanged := depsChanged s;
     nextRun := nextRun s; calls := v |}.

(** [node.style.cssText], read. *)
Definition cssText (s : state) (n : node) : jsstring :=
  reserialize (engine s) (styleAttr s n).

(** [node.outerHTML], read: the markup of the node with the inline styles
    as they are at that moment. *)
Definition outerHTML (s : state) (n : node) : jsstring :=
  markup s (cssText s) n.

Notation "s |> f" := (f s) (at level 50, left associativity, only parsing).

Definition upd {A B} (eqb : A -> A -> bool) (k : A) (v : B) (f : A -> B) : A -> B :=
  fun x => if eqb k x then v else f x.

Definition log (c : call) (s : state) : state :=
  set_calls (calls s ++ [c]) s.

(** *** Collaborators *)

(** Modelled from the spec: [togglePlayPause] of the replay context
    ([sentry/components/replays/replayContext], the "play/pause control" of
    the spec) is not among the sources. The call is recorded, and playback
    is in the requested state afterwards. *)
Definition togglePlayPause (play : bool) (s : state) : state :=
  s |> log (TogglePlayPause play) |> set_isPlaying play.

(** [openModal(deps => <ReplayInspectQueryModal selectedHtml={html} onSubmit=... />,
    {closeEvents: 'escape-key'})]: recorded with the markup the modal is
    rendered with. *)
Definition openModal (html : jsstring) (s : state) : state :=
  s |> log (OpenModal html).

(** *** The component *)

Definition HIGHLIGHT_STYLE : jsstring :=
  JS.lit "outline: 2px solid #6C5FC7 !important; outline-offset: -1px !important; cursor: crosshair !important;".

Definition nl : jsstring := [10%N].

Definition buildSeerPrompt (userQuery html : jsstring) : jsstring :=
  let truncatedHtml :=
    if (JS.length html >? 5000)%Z
    then JS.slice 0 5000 html +++ (nl +++ JS.lit "... (truncated)")
    else html in
  userQuery +++ nl +++ nl
  +++ JS.lit "The user selected the following DOM element from a Session Replay recording. Use this HTML context to focus your investigation:"
  +++ nl +++ nl
  +++ JS.lit "```html" +++ nl
  +++ truncatedHtml +++ nl
  +++ JS.lit "```" +++ nl +++ nl
  +++ JS.lit "Please use this HTML as context to help investigate the user's query. The HTML represents a specific element the user identified in their session replay as relevant to their question.".

Definition cleanupHighlight (s : state) : state :=
  match previousHighlightRef s with
  | Some el =>
      s |> set_styleAttr (upd node_eqb el (previousStyleRef s) (styleAttr s))
        |> set_previousHighlightRef None
        |> set_previousStyleRef []
  | None => s
  end.

Definition stopInspecting (s : state) : state :=
  let s := s |> set_isInspecting false |> cleanupHighlight in
  let s :=
    match contentDocumentOf (replayIframe s) with
    | Some d => s |> set_bodyCursor (upd Nat.eqb d [] (bodyCursor s))
    | None => s
    end in
  (* Resume playback if it was playing before *)
  if wasPlayingRef s
  then s |> togglePlayPause true |> set_wasPlayingRef false
  else s.

(** The [onSubmit] prop handed to the modal; [html] is the markup the
    enclosing [handleElementSelected] was called with. *)
Definition onSubmit (html query : jsstring) (s : state) : state :=
  s |> log CloseModal
    |> log (OpenSeerExplorer true (buildSeerPrompt query html)).

Definition handleElementSelected (html : jsstring) (s : state) : state :=
  s |> stopInspecting |> openModal html.

(** [!target || target === doc?.body || target === doc?.documentElement] *)
Definition ignoredTarget (doc : document) (target : option node) : bool :=
  match target with
  | None => true
  | Some t => node_eqb t (Body doc) || node_eqb t (DocumentElement doc)
  end.

Definition handleMouseOver (doc : document) (e : event) (s : state) : state :=
  match e_target e with
  | Some target =>
      if ignoredTarget doc (Some target) then s
      else
        let s := cleanupHighlight s in
        let s := s |> set_previousHighlightRef (Some target) in
        let s := s |> set_previousStyleRef (cssText s target) in
        s |> set_styleAttr
               (upd node_eqb target (cssText s target +++ HIGHLIGHT_STYLE) (styleAttr s))
  | None => s
  end.

Definition handleMouseOut (e : event) (s : state) : state :=
  if target_eqb (e_target e) (previousHighlightRef s) then cleanupHighlight s else s.

Definition handleClick (doc : document) (e : event) (s : state) : state :=
  let s := s |> log PreventDefault |> log StopPropagation |> log StopImmediatePropagation in
  match e_target e with
  | Some target =>
      if ignoredTarget doc (Some target) then s
      else
        (* Extract the outerHTML of the selected element, truncated to a reasonable size *)
        let html := JS.slice 0 10000 (outerHTML s target) in
        handleElementSelected html s
  | None => s
  end.

Definition handleKeyDown (e : event) (s : state) : state :=
  if JS.eqb (e_key e) (JS.lit "Escape") then stopInspecting s else s.

(** The function returned by the effect. *)
Definition cleanup (doc : document) (run : nat) (s : state) : state :=
  s |> set_listeners
         (listeners s
          |> removeEventListener (IframeDocument doc) mouseover (Closure HandleMouseOver doc run) true
          |> removeEventListener (IframeDocument doc) mouseout (Closure HandleMouseOut doc run) true
          |> removeEventListener (IframeDocument doc) click (Closure HandleClick doc run) true
          |> removeEventListener (IframeDocument doc) keydown (Closure HandleKeyDown doc run) true
          |> removeEventListener ParentDocument keydown (Closure HandleKeyDown doc run) true).

(** The body of [useEffect]: it leaves in [effectCleanup] what it returns. *)
Definition effect (s : state) : state :=
  if negb (isInspecting s) then s |> set_effectCleanup None
  else
    match contentDocumentOf (replayIframe s) with
    | None => s |> set_isInspecting false |> set_effectCleanup None
    | Some doc =>
        let run := nextRun s in
        let s := s |> set_nextRun (S run) in
        let s := s |> set_bodyCursor (upd Nat.eqb doc (JS.lit "crosshair") (bodyCursor s)) in
        s |> set_listeners
               (listeners s
                |> addEventListener (IframeDocument doc) mouseover (Closure HandleMouseOver doc run) true
                |> addEventListener (IframeDocument doc) mouseout (Closure HandleMouseOut doc run) true
                |> addEventListener (IframeDocument doc) click (Closure HandleClick doc run) true
                |> addEventListener (IframeDocument doc) keydown (Closure HandleKeyDown doc run) true
                (* Also listen on parent document for Escape *)
                |> addEventListener ParentDocument keydown (Closure HandleKeyDown doc run) true)
          |> set_effectCleanup (Some (doc, run))
    end.

Definition handleToggleInspect (s : state) : state :=
  if isInspecting s then stopInspecting s
  else
    match contentDocumentOf (replayIframe s) with
    | None => s
    | Some _ =>
        (* Pause playback while inspecting *)
        let s :=
          if isPlaying s
          then s |> set_wasPlayingRef true |> togglePlayPause false
          else s in
        s |> set_isInspecting true
    end.

(** *** The host: DOM event dispatch and React's effect schedule *)

Definition callHandler (cb : callback) (e : event) (s : state) : state :=
  match cb with
  | Closure HandleMouseOver doc _ => handleMouseOver doc e s
  | Closure HandleMouseOut _ _ => handleMouseOut e s
  | Closure HandleClick doc _ => handleClick doc e s
  | Closure HandleKeyDown _ _ => handleKeyDown e s
  | Foreign _ => s
  end.

(** An event of type [e_type e] arrives at [t]: the listeners registered
    there for that type are called in the order they were added. *)
Definition dispatchEvent (t : eventTarget) (e : event) (s : state) : state :=
  fold_left
    (fun s l =>
       if eventTarget_eqb (l_target l) t && eventType_eqb (l_type l) (e_type e)
       then callHandler (l_callback l) e s
       else s)
    (listeners s) s.

(** After a render React compares the effect's dependencies with those of
    its last run. [isInspecting] is the one this component owns; the others
    are callbacks derived from the replay context, [depsChanged] says that
    one of them is a new function. When a dependency differs, the cleanup of
    the last run is called and the effect runs again. *)
Definition commitEffect (s : state) : state :=
  if Bool.eqb (isInspecting s) (effectDep s) && negb (depsChanged s) then s
  else
    let s :=
      match effectCleanup s with
      | Some (doc, run) => cleanup doc run s
      | None => s
      end in
    s |> set_effectDep (isInspecting s) |> set_depsChanged false |> effect.

(** The effect may set state itself, which renders once more. *)
Definition render (s : state) : state :=
  s |> commitEffect |> commitEffect.

(** Unmounting calls the cleanup of the last run. *)
Definition unmount (s : state) : state :=
  match effectCleanup s with
  | Some (doc, run) => cleanup doc run s |> set_effectCleanup None
  | None => s
  end.

(** What can happen to a mounted component: the button is clicked, a DOM
    event arrives at the iframe's document or at the parent document, or
    the replay context changes (another iframe or none, playback started or
    stopped elsewhere, new callbacks). *)
Inductive input :=
| ClickButton
| DomEvent (t : eventTarget) (e : event)
| ContextChange (f : option iframe) (playing : bool) (newCallbacks : bool).

Definition handle (i : input) (s : state) : state :=
  match i with
  | ClickButton => handleToggleInspect s
  | DomEvent t e => dispatchEvent t e s
  | ContextChange f playing newCallbacks =>
      s |> set_replayIframe f |> set_isPlaying playing
        |> set_depsChanged (depsChanged s || newCallbacks)
  end.

Definition step (i : input) (s : state) : state :=
  s |> handle i |> render.

Definition run (inputs : list input) (s : state) : state :=
  fold_left (fun s i => step i s) inputs s.

(** The page the component is mounted in: the browser's CSS engine, the
    style attribute each node comes with, the cursor of each body, how
    nodes are written out as markup. [p_listeners] are the listeners other
    code has registered: target, type, an identifier of the function and
    the capture flag. *)
Record page := {
  p_iframe : option iframe;
  p_isPlaying : bool;
  p_engine : cssom;
  p_styleAttr : node -> jsstring;
  p_bodyCursor : document -> jsstring;
  p_markup : (node -> jsstring) -> node -> jsstring;
  p_listeners : list (eventTarget * eventType * nat * bool)
}.

Definition foreignListener (l : eventTarget * eventType * nat * bool) : listener :=
  let '(t, ty, id, capture) := l in
  {| l_target := t; l_type := ty; l_callback := Foreign id; l_capture := capture |}.

(** The state after the first render: [useState(false)], [useRef(false)],
    [useRef(null)], [useRef('')]; the effect has run and returned at once. *)
Definition mount (p : page) : state :=
  {| isInspecting := false;
     wasPlayingRef := false;
     previousHighlightRef := None;
     previousStyleRef := [];
     replayIframe := p_iframe p;
     isPlaying := p_isPlaying p;
     engine := p_engine p;
     styleAttr := p_styleAttr p;
     bodyCursor := p_bodyCursor p;
     markup := p_markup p;
     listeners := map foreignListener (p_listeners p);
     effectCleanup := None;
     effectDep := false;
     depsChanged := false;
     nextRun := 0;
     calls := [] |}.

(** The states a component mounted in page [p] can be in between two
    inputs. *)
Inductive reachable (p : page) : state -> Prop :=
| reachable_mount : reachable p (mount p)
| reachable_step (i : input) (s : state) : reachable p s -> reachable p (step i s).

(** The listeners of one run of the effect, in the order it adds them. *)
Definition effectListeners (doc : document) (run : nat) : list listener :=
  [ {| l_target := IframeDocument doc; l_type := mouseover;
       l_callback := Closure HandleMouseOver doc run; l_capture := true |};
    {| l_target := IframeDocument doc; l_type := mouseout;
       l_callback := Closure HandleMouseOut doc run; l_capture := true |};
    {| l_target := IframeDocument doc; l_type := click;
       l_callback := Closure HandleClick doc run; l_capture := true |};
    {| l_target := IframeDocument doc; l_type := keydown;
       l_callback := Closure HandleKeyDown doc run; l_capture := true |};
    {| l_target := ParentDocument; l_type := keydown;
       l_callback := Closure HandleKeyDown doc run; l_capture := true |} ].

(** A listener whose callback is one of this component's closures. *)
Definition ownListener (l : listener) : bool :=
  match l_callback l with
  | Closure _ _ _ => true
  | Foreign _ => false
  end.

(** *** What the component renders *)

(** The [priority] prop of the button. *)
Inductive priority := primary | default.

Definition buttonPriority (s : state) : priority :=
  if isInspecting s then primary else default.

(** The [title] prop of the tooltip; [t] is the translation function of
    [sentry/locale]. *)
Definition tooltipTitle (t : jsstring -> jsstring) (s : state) : jsstring :=
  if isInspecting s
  then t (JS.lit "Click an element in the replay, or press Escape to cancel")
  else t (JS.lit "Inspect element and ask Seer").

(** *** The modal opened by [handleElementSelected] *)

(** A call made by the modal's [handleSubmit], as it acts here: the form
    event's [preventDefault], or the [onSubmit] prop that
    [handleElementSelected] passes, closed over its [html]. *)
Definition modalCall (html : jsstring) (c : ReplayInspectQueryModal.call)
    (s : state) : state :=
  match c with
  | ReplayInspectQueryModal.PreventDefault => s |> log PreventDefault
  | ReplayInspectQueryModal.OnSubmit query => s |> onSubmit html query
  end.

(** The form of the modal opened for [html] is submitted with [query] in
    its input. *)
Definition submitModal (html query : jsstring) (s : state) : state :=
  fold_left (fun s c => modalCall html c s)
    (ReplayInspectQueryModal.handleSubmit query) s.

End ReplayDOMInspectButton.

(** * Specification vocabulary *)

Module Spec.

(** [t] is [s] with leading and trailing white space removed: [s] is [t]
    between a run of white space at the start and one at the end, and [t]
    itself neither starts nor ends with white space. *)
Record trimmed_of (s t : jsstring) : Prop := {
  trimmed_split :
    exists pre post, s = pre ++ t ++ post
      /\ forallb JS.isWhiteSpace pre = true
      /\ forallb JS.isWhiteSpace post = true;
  trimmed_head : forall c r, t = c :: r -> JS.isWhiteSpace c = false;
  trimmed_last : forall r c, t = r ++ [c] -> JS.isWhiteSpace c = false
}.

(** [p] is exactly the first [n] code units of [s]. *)
Definition first_chars (n : Z) (s p : jsstring) : Prop :=
  JS.length p = n /\ exists rest, s = p ++ rest.

Import ReplayDOMInspectButton.

(** The listeners a stored cleanup stands for. *)
Definition attached (c : option (document * nat)) : list listener :=
  match c with
  | Some (doc, run) => effectListeners doc run
  | None => []
  end.

(** None of the listeners is one of this component's. *)
Definition foreignOnly (ls : list listener) : Prop :=
  forall l, In l ls -> ownListener l = false.

(** A handler leaves the listeners and React's bookkeeping alone. *)
Record hostFrame (s s' : state) : Prop := {
  frame_listeners : listeners s' = listeners s;
  frame_effectCleanup : effectCleanup s' = effectCleanup s;
  frame_effectDep : effectDep s' = effectDep s;
  frame_nextRun : nextRun s' = nextRun s
}.

(** [s'] has the CSS engine, the inline styles and the highlight refs of
    [s]. *)
Record styleFrame (s s' : state) : Prop := {
  frame_engine : engine s' = engine s;
  frame_styleAttr : styleAttr s' = styleAttr s;
  frame_previousHighlightRef : previousHighlightRef s' = previousHighlightRef s;
  frame_previousStyleRef : previousStyleRef s' = previousStyleRef s
}.


(** From [s] to [s'] inspection is not switched on, and the was-playing
    flag is as it was unless inspection is off. *)
Definition keepsFlag (s s' : state) : Prop :=
  (isInspecting s = false -> isInspecting s' = false)
  /\ (wasPlayingRef s' = wasPlayingRef s \/ isInspecting s' = false).

(** What holds of the listeners after any handler: those registered are
    the page's own and the five of the last run of the effect, if that run
    attached any; it attached some exactly when it saw [isInspecting]. *)
Record attachedInv (p : page) (s : state) : Prop := {
  inv_listeners :
    listeners s = map foreignListener (p_listeners p) ++ attached (effectCleanup s);
  inv_effectDep :
    effectDep s = match effectCleanup s with Some _ => true | None => false end
}.

(** What a render comes to, by cases. *)
Inductive rendered (p : page) (s : state) : state -> Prop :=
| rendered_settled :
    effectDep s = isInspecting s -> depsChanged s = false ->
    rendered p s s
| rendered_detached :
    isInspecting s = false ->
    rendered p s
      (s |> set_listeners (map foreignListener (p_listeners p))
         |> set_effectDep false |> set_depsChanged false |> set_effectCleanup None)
| rendered_attached (doc : document) :
    isInspecting s = true ->
    contentDocumentOf (replayIframe s) = Some doc ->
    rendered p s
      (s |> set_listeners (map foreignListener (p_listeners p) ++ effectListeners doc (nextRun s))
         |> set_effectDep true |> set_depsChanged false
         |> set_nextRun (S (nextRun s))
         |> set_bodyCursor (upd Nat.eqb doc (JS.lit "crosshair") (bodyCursor s))
         |> set_effectCleanup (Some (doc, nextRun s)))
| rendered_bailed_out :
    isInspecting s = true ->
    contentDocumentOf (replayIframe s) = None ->
    rendered p s
      (s |> set_listeners (map foreignListener (p_listeners p))
         |> set_effectDep false |> set_depsChanged false
         |> set_isInspecting false |> set_effectCleanup None).

(** What holds in addition once the render has settled. *)
Record settledInv (p : page) (s : state) : Prop := {
  inv_attached : attachedInv p s;
  inv_settled : effectDep s = isInspecting s;
  inv_depsChanged : depsChanged s = false
}.


(** Reading a call log for playback: [paused] says that the last
    [togglePlayPause] call so far was a pause. A resume is in order only
    then; [None] is a resume that no pause precedes. *)
Fixpoint playbackLog (paused : bool) (cs : list call) : option bool :=
  match cs with
  | [] => Some paused
  | TogglePlayPause false :: cs' => playbackLog true cs'
  | TogglePlayPause true :: cs' => if paused then playbackLog false cs' else None
  | _ :: cs' => playbackLog paused cs'
  end.

(** [s'] has the call log and the was-playing flag of [s]. *)
Record callsFrame (s s' : state) : Prop := {
  frame_calls : calls s' = calls s;
  frame_wasPlayingRef : wasPlayingRef s' = wasPlayingRef s
}.

(** Every markup a modal was opened with has at most [n] code units. *)
Definition modalsWithin (n : Z) (cs : list call) : Prop :=
  forall html, In (OpenModal html) cs -> (JS.length html <= n)%Z.



(** From [s] to [s'] inspection is not switched on, and the cursors are as
    they were unless inspection is off. *)
Definition keepsCursor (s s' : state) : Prop :=
  (isInspecting s = false -> isInspecting s' = false)
  /\ (bodyCursor s' = bodyCursor s \/ isInspecting s' = false).

(** Inspection is on after each of the inputs, and before the first. *)
Fixpoint inspectingThroughout (inputs : list input) (s : state) : Prop :=
  isInspecting s = true
  /\ match inputs with
     | [] => True
     | i :: rest => inspectingThroughout rest (step i s)
     end.

(** The input of the modal is not edited by this input. *)
Definition keepsQuery (i : ReplayInspectQueryModal.input) : Prop :=
  match i with
  | ReplayInspectQueryModal.Change _ => False
  | _ => True
  end.

End Spec.

(** * Properties *)

(** ** Strings *)

Module JSFacts.

Import Spec.

Lemma length_nonneg (s : jsstring) : (0 <= JS.length s)%Z.
Proof. unfold JS.length. lia. Qed.

Lemma eqb_eq (a b : jsstring) : JS.eqb a b = true <-> a = b.
Proof.
  revert b. induction a as [|x a IH]; intros [|y b]; simpl; split;
    try congruence; try reflexivity.
  - intros H. apply andb_true_iff in H as [Hx Hab].
    apply N.eqb_eq in Hx. apply IH in Hab. congruence.
  - intros H. injection H as -> ->.
    apply andb_true_iff. split; [apply N.eqb_refl | now apply IH].
Qed.


(** [s.slice(0, n)] keeps the first [n] code units. *)
Lemma slice_0 (n : Z) (s : jsstring) :
  (0 <= n)%Z -> JS.slice 0 n s = firstn (Z.to_nat n) s.
Proof.
  intros Hn. unfold JS.slice.
  pose proof (length_nonneg s) as Hl.
  replace (0 <? 0)%Z with false by reflexivity.
  replace (n <? 0)%Z with false by (symmetry; apply Z.ltb_ge; exact Hn).
  rewrite Z.min_l by exact Hl.
  destruct (Z.geb_spec 0 (Z.min n (JS.length s))) as [Hge | Hlt].
  - assert (n = 0 \/ JS.length s = 0)%Z as [-> | H0] by lia.
    + reflexivity.
    + unfold JS.length in H0. destruct s; [now rewrite firstn_nil | discriminate].
  - rewrite Z.sub_0_r. simpl skipn.
    destruct (Z.le_ge_cases n (JS.length s)) as [Hle | Hge].
    + now rewrite Z.min_l.
    + rewrite Z.min_r by lia. unfold JS.length. rewrite Nat2Z.id.
      rewrite !firstn_all2; [reflexivity | unfold JS.length in Hge; lia | lia].
Qed.

Lemma slice_0_short (n : Z) (s : jsstring) :
  (JS.length s <= n)%Z -> JS.slice 0 n s = s.
Proof.
  intros H. pose proof (length_nonneg s).
  rewrite slice_0 by lia. apply firstn_all2. unfold JS.length in H. lia.
Qed.

Lemma slice_0_long (n : Z) (s : jsstring) :
  (0 <= n < JS.length s)%Z ->
  JS.length (JS.slice 0 n s) = n /\
  s = JS.slice 0 n s ++ skipn (Z.to_nat n) s.
Proof.
  intros H. rewrite slice_0 by lia. split.
  - unfold JS.length in *. rewrite length_firstn. lia.
  - symmetry. apply firstn_skipn.
Qed.

(** *** [trim] *)

Lemma trimStart_split (s : jsstring) :
  exists ws, s = ws ++ JS.trimStart s /\ forallb JS.isWhiteSpace ws = true.
Proof.
  induction s as [|c s [ws [Hs Hws]]]; simpl.
  - now exists [].
  - destruct (JS.isWhiteSpace c) eqn:Hc.
    + exists (c :: ws). simpl. rewrite Hc, Hws. split; [congruence | reflexivity].
    + now exists [].
Qed.

Lemma trimStart_head (s : jsstring) (c : JS.code_unit) (r : jsstring) :
  JS.trimStart s = c :: r -> JS.isWhiteSpace c = false.
Proof.
  induction s as [|x s IH]; simpl; [discriminate|].
  destruct (JS.isWhiteSpace x) eqn:Hx; [exact IH|].
  intros H. injection H as -> _. exact Hx.
Qed.

Lemma trimStart_fixed (s : jsstring) (c : JS.code_unit) (r : jsstring) :
  s = c :: r -> JS.isWhiteSpace c = false -> JS.trimStart s = s.
Proof. intros -> H. simpl. now rewrite H. Qed.

Lemma trimEnd_split (s : jsstring) :
  exists ws, s = JS.trimEnd s ++ ws /\ forallb JS.isWhiteSpace ws = true.
Proof.
  unfold JS.trimEnd. destruct (trimStart_split (rev s)) as [ws [Hs Hws]].
  exists (rev ws). split.
  - rewrite <- (rev_involutive s), Hs at 1. now rewrite rev_app_distr.
  - rewrite forallb_forall in *. intros x Hx. apply Hws. now apply in_rev.
Qed.

Lemma trimEnd_last (s r : jsstring) (c : JS.code_unit) :
  JS.trimEnd s = r ++ [c] -> JS.isWhiteSpace c = false.
Proof.
  unfold JS.trimEnd. intros H.
  apply (f_equal (@rev _)) in H. rewrite rev_involutive, rev_app_distr in H.
  simpl in H. now apply trimStart_head in H.
Qed.

(** Stripping the end of a string leaves its first code unit in place. *)
Lemma trimEnd_head (s r : jsstring) (c : JS.code_unit) :
  JS.trimEnd s = c :: r -> exists r', s = c :: r'.
Proof.
  intros H. destruct (trimEnd_split s) as [ws [Hs _]].
  rewrite H in Hs. simpl in Hs. eauto.
Qed.

Lemma trim_trimmed (s : jsstring) : trimmed_of s (JS.trim s).
Proof.
  unfold JS.trim. split.
  - destruct (trimStart_split s) as [pre [Hs Hpre]].
    destruct (trimEnd_split (JS.trimStart s)) as [post [Ht Hpost]].
    exists pre, post. split; [|split]; try assumption.
    rewrite <- Ht. exact Hs.
  - intros c r H. destruct (trimEnd_head _ H) as [r' Hr'].
    now apply trimStart_head in Hr'.
  - intros r c H. now apply trimEnd_last in H.
Qed.

Lemma trimStart_app_ws (ws r : jsstring) :
  forallb JS.isWhiteSpace ws = true -> JS.trimStart (ws ++ r) = JS.trimStart r.
Proof.
  induction ws as [|c ws IH]; simpl; [reflexivity|].
  intros H. apply andb_true_iff in H as [Hc Hws]. rewrite Hc. now apply IH.
Qed.

Lemma trimEnd_app_ws (r ws : jsstring) :
  forallb JS.isWhiteSpace ws = true -> JS.trimEnd (r ++ ws) = JS.trimEnd r.
Proof.
  intros H. unfold JS.trimEnd. rewrite rev_app_distr, trimStart_app_ws; [reflexivity|].
  rewrite forallb_forall in *. intros x Hx. apply H. now apply in_rev.
Qed.

(** The trimmed string is determined by the three conditions. *)
Lemma trimmed_of_unique (s t : jsstring) : trimmed_of s t -> t = JS.trim s.
Proof.
  intros [(pre & post & -> & Hpre & Hpost) Hhead Hlast].
  unfold JS.trim. rewrite trimStart_app_ws by exact Hpre.
  destruct t as [|c r].
  - simpl. rewrite <- (app_nil_r post), trimStart_app_ws by exact Hpost.
    reflexivity.
  - assert (JS.trimStart ((c :: r) ++ post) = (c :: r) ++ post) as ->.
    { simpl. now rewrite (Hhead c r eq_refl). }
    rewrite trimEnd_app_ws by exact Hpost.
    destruct (exists_last (l := c :: r)) as (r' & c' & Hr); [discriminate|].
    rewrite Hr. unfold JS.trimEnd. rewrite rev_app_distr. simpl.
    rewrite (Hlast r' c' Hr). simpl. now rewrite rev_involutive.
Qed.

Lemma trimStart_stable (s : jsstring) :
  JS.trimStart (JS.trimStart s) = JS.trimStart s.
Proof.
  induction s as [|c s IH]; simpl; [reflexivity|].
  destruct (JS.isWhiteSpace c) eqn:Hc; [exact IH|].
  simpl. now rewrite Hc.
Qed.

End JSFacts.

(** * A sample page *)

Module Examples.

Import ReplayDOMInspectButton.

Definition replayFrame : iframe := {| contentDocument := Some 0 |}.

(** A styled button and a large table inside the replay. *)
Definition saveButton : node := Element 0 1.
Definition bigTable : node := Element 0 2.

(** A stand-in for a browser's CSS engine: what reads back is the text
    assigned without its leading white space. *)
Definition sampleEngine : cssom :=
  {| reserialize := JS.trimStart;
     reserialize_stable := JSFacts.trimStart_stable |}.

(** The button comes with a style attribute, and its markup shows the
    inline style it has at the time. *)
Definition replayPage : page :=
  {| p_iframe := Some replayFrame;
     p_isPlaying := true;
     p_engine := sampleEngine;
     p_styleAttr := fun n => if node_eqb n saveButton then JS.lit " color: red;" else [];
     p_bodyCursor := fun _ => [];
     p_markup := fun css n =>
       if node_eqb n saveButton
       then JS.lit "<button style='" ++ css saveButton ++ JS.lit "'>Save</button>"
       else if node_eqb n bigTable then repeat 120%N (N.to_nat 10001)
       else [];
     p_listeners := [(ParentDocument, keydown, 7, false)] |}.

Definition mouseEvent (ty : eventType) (target : option node) : event :=
  {| e_type := ty; e_target := target; e_key := [] |}.

Definition keyEvent (key : string) : event :=
  {| e_type := keydown; e_target := None; e_key := JS.lit key |}.

End Examples.

(** ** The query modal *)

Module ModalProps.

Import Spec ReplayInspectQueryModal.

Lemma trim_all_white (query : jsstring) :
  forallb JS.isWhiteSpace query = true <-> JS.trim query = [].
Proof.
  split.
  - intros H. symmetry. apply JSFacts.trimmed_of_unique. split.
    + exists query, []. now rewrite app_nil_r.
    + discriminate.
    + intros [|] ? ?; discriminate.
  - intros H. destruct (JSFacts.trim_trimmed query) as [(pre & post & Hq & Hpre & Hpost) _ _].
    rewrite H in Hq. simpl in Hq. subst query.
    rewrite forallb_app, Hpre, Hpost. reflexivity.
Qed.

(** C3: the preview is [selectedHtml] itself up to 200 code units (200
    included), and its first 200 code units followed by three dots
    beyond. *)
Theorem C3_htmlPreview_boundary (selectedHtml : jsstring) :
  ((JS.length selectedHtml <= 200)%Z -> htmlPreview selectedHtml = selectedHtml)
  /\ ((JS.length selectedHtml = 200)%Z -> htmlPreview selectedHtml = selectedHtml)
  /\ ((200 < JS.length selectedHtml)%Z ->
      exists p, first_chars 200 selectedHtml p
                /\ htmlPreview selectedHtml = p ++ JS.lit "...").
Proof.
  unfold htmlPreview.
  destruct (Z.gtb_spec (JS.length selectedHtml) 200) as [Hlong | Hshort].
  - repeat split; try lia. intros _.
    destruct (@JSFacts.slice_0_long 200 selectedHtml) as [Hlen Hsplit].
    { pose proof (JSFacts.length_nonneg selectedHtml). lia. }
    exists (JS.slice 0 200 selectedHtml). split; [|reflexivity].
    split; [exact Hlen | eauto].
  - repeat split; try reflexivity. lia.
Qed.

Lemma C3_htmlPreview_boundary_witness :
  htmlPreview (repeat 97%N 200) = repeat 97%N 200
  /\ exists p, first_chars 200 (repeat 97%N 201) p
               /\ htmlPreview (repeat 97%N 201) = p ++ JS.lit "...".
Proof.
  split.
  - apply (proj1 (C3_htmlPreview_boundary (repeat 97%N 200))).
    vm_compute. discriminate.
  - apply (proj2 (proj2 (C3_htmlPreview_boundary (repeat 97%N 201)))).
    vm_compute. reflexivity.
Defined.

(** C9: [onSubmit] is called only with the non-empty trimmed query. With
    an empty or all-white-space query, submitting calls nothing but
    [preventDefault] on the form event, and the submit button is disabled;
    any argument [onSubmit] receives is non-empty and is the query with
    leading and trailing white space removed; and with any other query it
    is called, once. *)
Theorem C9_onSubmit_trimmed_nonempty (query : jsstring) :
  (forallb JS.isWhiteSpace query = true ->
     handleSubmit query = [PreventDefault] /\ submitDisabled query = true)
  /\ (forall q, In (OnSubmit q) (handleSubmit query) ->
        q <> [] /\ trimmed_of query q /\ q = JS.trim query)
  /\ (forallb JS.isWhiteSpace query = false ->
        handleSubmit query = [PreventDefault; OnSubmit (JS.trim query)]
        /\ submitDisabled query = false).
Proof.
  unfold handleSubmit, submitDisabled.
  pose proof (trim_all_white query) as Hw.
  pose proof (JSFacts.trim_trimmed query) as Ht.
  destruct (JS.trim query) as [|c r] eqn:Htrim; simpl.
  - split; [|split].
    + auto.
    + intros q [H | []]. discriminate.
    + intros H. rewrite (proj2 Hw eq_refl) in H. discriminate.
  - split; [|split].
    + intros H. apply Hw in H. discriminate.
    + intros q [H | [H | []]]; [discriminate|].
      injection H as <-. repeat split; try apply Ht. discriminate.
    + auto.
Qed.

Lemma C9_onSubmit_trimmed_nonempty_witness :
  (handleSubmit (JS.lit "  ") = [PreventDefault]
   /\ submitDisabled (JS.lit "  ") = true)
  /\ (JS.lit "why?" <> [] /\ trimmed_of (JS.lit " why? ") (JS.lit "why?")
      /\ JS.lit "why?" = JS.trim (JS.lit " why? "))
  /\ (handleSubmit (JS.lit " why? ") = [PreventDefault; OnSubmit (JS.trim (JS.lit " why? "))]
      /\ submitDisabled (JS.lit " why? ") = false).
Proof.
  split; [|split].
  - apply (proj1 (C9_onSubmit_trimmed_nonempty (JS.lit "  "))). reflexivity.
  - apply (proj1 (proj2 (C9_onSubmit_trimmed_nonempty (JS.lit " why? ")))).
    vm_compute. right. left. reflexivity.
  - apply (proj2 (proj2 (C9_onSubmit_trimmed_nonempty (JS.lit " why? ")))).
    reflexivity.
Defined.

End ModalProps.

(** ** The inspect button *)

Module ButtonProps.

Import Spec ReplayDOMInspectButton.

Lemma node_eqb_eq (a b : node) : node_eqb a b = true <-> a = b.
Proof.
  destruct a, b; simpl; split; intros H; try discriminate;
    rewrite ?andb_true_iff, ?Nat.eqb_eq in *;
    try (injection H as ? ?); try (injection H as ?); subst; intuition congruence.
Qed.

Lemma node_eqb_refl (a : node) : node_eqb a a = true.
Proof. now apply node_eqb_eq. Qed.

Lemma node_eqb_neq (a b : node) : node_eqb a b = false <-> a <> b.
Proof. rewrite <- node_eqb_eq. destruct (node_eqb a b); split; congruence. Qed.

Lemma ignoredTarget_spec (doc : document) (target : option node) :
  ignoredTarget doc target = true
  <-> target = None \/ target = Some (Body doc) \/ target = Some (DocumentElement doc).
Proof.
  destruct target as [t|]; simpl.
  - rewrite orb_true_iff, !node_eqb_eq. split.
    + intros [-> | ->]; auto.
    + intros [H | [H | H]]; inversion H; auto.
  - intuition.
Qed.

Lemma upd_same {B} (k : node) (v : B) (f : node -> B) : upd node_eqb k v f k = v.
Proof. unfold upd. now rewrite node_eqb_refl. Qed.


(** C1: a click on an element hands [handleElementSelected] the first
    10,000 code units of the element's [outerHTML]: all of it when it is
    that short, and exactly its first 10,000 otherwise. The modal is opened
    with that markup. *)
Theorem C1_click_captures_first_10000
    (doc : document) (e : event) (target : node) (s : state) :
  e_target e = Some target ->
  ignoredTarget doc (Some target) = false ->
  exists captured,
    handleClick doc e s
    = handleElementSelected captured
        (s |> log PreventDefault |> log StopPropagation |> log StopImmediatePropagation)
    /\ (exists before, calls (handleClick doc e s) = before ++ [OpenModal captured])
    /\ ((JS.length (outerHTML s target) <= 10000)%Z -> captured = outerHTML s target)
    /\ ((10000 < JS.length (outerHTML s target))%Z ->
        first_chars 10000 (outerHTML s target) captured).
Proof.
  intros Ht Hi. exists (JS.slice 0 10000 (outerHTML s target)).
  unfold handleClick. rewrite Ht, Hi. cbv zeta. split; [reflexivity|].
  split; [|split].
  - unfold handleElementSelected, openModal, log at 1. simpl calls. eauto.
  - intros H. now apply JSFacts.slice_0_short.
  - intros H. destruct (@JSFacts.slice_0_long 10000 (outerHTML s target)) as [Hl Hs];
      [lia|]. split; eauto.
Qed.

Lemma C1_click_captures_first_10000_witness :
  exists captured,
    (exists before,
        calls (handleClick 0 (Examples.mouseEvent click (Some Examples.bigTable))
                 (mount Examples.replayPage))
        = before ++ [OpenModal captured])
    /\ first_chars 10000 (repeat 120%N (N.to_nat 10001)) captured.
Proof.
  destruct (@C1_click_captures_first_10000 0
              (Examples.mouseEvent click (Some Examples.bigTable))
              Examples.bigTable (mount Examples.replayPage) eq_refl eq_refl)
    as (captured & _ & Hcalls & _ & Hlong).
  exists captured. split; [exact Hcalls|].
  apply Hlong. vm_compute. reflexivity.
Defined.

(** C2: the prompt is the user's query, a fixed text, the markup, and a
    fixed text; the markup is [html] itself up to 5,000 code units and its
    first 5,000 code units followed by a truncation marker beyond. That
    prompt is what [onSubmit] hands to [openSeerExplorer]. *)
Theorem C2_prompt_embeds_truncated_markup :
  exists head tail marker : jsstring,
    marker = nl ++ JS.lit "... (truncated)"
    /\ forall userQuery html : jsstring,
        (exists embedded,
            buildSeerPrompt userQuery html = userQuery ++ head ++ embedded ++ tail
            /\ ((JS.length html <= 5000)%Z -> embedded = html)
            /\ ((5000 < JS.length html)%Z ->
                exists p, first_chars 5000 html p /\ embedded = p ++ marker))
        /\ forall s,
            calls (onSubmit html userQuery s)
            = calls s ++ [CloseModal; OpenSeerExplorer true (buildSeerPrompt userQuery html)].
Proof.
  exists (nl ++ nl
          ++ JS.lit "The user selected the following DOM element from a Session Replay recording. Use this HTML context to focus your investigation:"
          ++ nl ++ nl ++ JS.lit "```html" ++ nl),
         (nl ++ JS.lit "```" ++ nl ++ nl
          ++ JS.lit "Please use this HTML as context to help investigate the user's query. The HTML represents a specific element the user identified in their session replay as relevant to their question."),
         (nl ++ JS.lit "... (truncated)").
  split; [reflexivity|]. intros userQuery html. split.
  - unfold buildSeerPrompt, JS.concat.
    set (truncatedHtml := if (JS.length html >? 5000)%Z then _ else _).
    exists truncatedHtml. split.
    + rewrite <- !app_assoc. reflexivity.
    + subst truncatedHtml.
      destruct (Z.gtb_spec (JS.length html) 5000) as [Hlong | Hshort].
      * split; [lia|]. intros _.
        destruct (@JSFacts.slice_0_long 5000 html) as [Hl Hs]; [lia|].
        exists (JS.slice 0 5000 html). split; [split; eauto | reflexivity].
      * split; [reflexivity | lia].
  - intros s. unfold onSubmit, log. simpl. now rewrite <- app_assoc.
Qed.

Lemma C2_prompt_embeds_truncated_markup_witness :
  exists head tail p : jsstring,
    first_chars 5000 (repeat 120%N (N.to_nat 5001)) p
    /\ buildSeerPrompt (JS.lit "why?") (repeat 120%N (N.to_nat 5001))
       = JS.lit "why?" ++ head ++ (p ++ nl ++ JS.lit "... (truncated)") ++ tail.
Proof.
  destruct C2_prompt_embeds_truncated_markup as (head & tail & marker & -> & H).
  destruct (H (JS.lit "why?") (repeat 120%N (N.to_nat 5001)))
    as [(embedded & Hprompt & _ & Hlong) _].
  destruct Hlong as (p & Hp & ->); [vm_compute; reflexivity|].
  exists head, tail, p. split; [exact Hp | exact Hprompt].
Defined.

(** C8: without an iframe, or with an iframe that has no [contentDocument],
    switching inspection on changes nothing at all; and when the effect
    finds inspection requested but no document, it clears the inspecting
    flag and registers no listener, as does the render that follows the
    request. *)
Theorem C8_missing_iframe_is_guarded (s : state) :
  replayIframe s = None \/ replayIframe s = Some {| contentDocument := None |} ->
  (isInspecting s = false -> handleToggleInspect s = s)
  /\ (isInspecting s = true ->
      effect s = (s |> set_isInspecting false |> set_effectCleanup None)
      /\ isInspecting (effect s) = false
      /\ listeners (effect s) = listeners s)
  /\ (isInspecting s = true -> effectDep s = false -> effectCleanup s = None ->
      isInspecting (render s) = false
      /\ listeners (render s) = listeners s
      /\ effectCleanup (render s) = None).
Proof.
  intros Hframe.
  assert (contentDocumentOf (replayIframe s) = None) as Hdoc
    by (destruct Hframe as [-> | ->]; reflexivity).
  split; [|split].
  - intros Hi. unfold handleToggleInspect. now rewrite Hi, Hdoc.
  - intros Hi. unfold effect. rewrite Hi, Hdoc. simpl. auto.
  - intros Hi Hdep Hcl. unfold render.
    assert (commitEffect s
            = (s |> set_effectDep true |> set_depsChanged false
                 |> set_isInspecting false |> set_effectCleanup None)) as ->.
    { unfold commitEffect, effect. rewrite Hi, Hdep, Hcl. simpl.
      rewrite Hi, Hdoc. reflexivity. }
    unfold commitEffect, effect. simpl. auto.
Qed.

Lemma C8_missing_iframe_is_guarded_witness :
  let noFrame := set_replayIframe None (mount Examples.replayPage) in
  let requested := set_isInspecting true noFrame in
  handleToggleInspect noFrame = noFrame
  /\ isInspecting (effect requested) = false
  /\ listeners (effect requested) = listeners requested
  /\ isInspecting (render requested) = false
  /\ listeners (render requested) = listeners requested.
Proof.
  intros noFrame requested.
  destruct (@C8_missing_iframe_is_guarded noFrame (or_introl eq_refl)) as (Htoggle & _ & _).
  destruct (@C8_missing_iframe_is_guarded requested (or_introl eq_refl)) as (_ & Heffect & Hrender).
  destruct (Heffect eq_refl) as (_ & He1 & He2).
  destruct (Hrender eq_refl eq_refl eq_refl) as (Hr1 & Hr2 & _).
  repeat split; auto.
Defined.

(** C10: a mouseover or a click without target, on the body or on the
    document element of the inspected document is ignored: the mouseover
    changes nothing (no highlight, the saved style untouched); the click
    only calls [preventDefault], [stopPropagation] and
    [stopImmediatePropagation] on the event: inspection goes on, no markup
    is captured and no modal is opened. *)
Theorem C10_body_and_root_are_ignored (doc : document) (e : event) (s : state) :
  e_target e = None \/ e_target e = Some (Body doc)
  \/ e_target e = Some (DocumentElement doc) ->
  handleMouseOver doc e s = s
  /\ handleClick doc e s
     = (s |> log PreventDefault |> log StopPropagation |> log StopImmediatePropagation)
  /\ isInspecting (handleClick doc e s) = isInspecting s
  /\ calls (handleClick doc e s)
     = calls s ++ [PreventDefault; StopPropagation; StopImmediatePropagation]
  /\ (forall html, In (OpenModal html) (calls (handleClick doc e s)) ->
                   In (OpenModal html) (calls s)).
Proof.
  intros H. apply ignoredTarget_spec in H.
  assert (handleMouseOver doc e s = s) as Hover.
  { unfold handleMouseOver. destruct (e_target e); [now rewrite H | reflexivity]. }
  assert (handleClick doc e s
          = (s |> log PreventDefault |> log StopPropagation |> log StopImmediatePropagation))
    as Hclick.
  { unfold handleClick. destruct (e_target e); [now rewrite H | reflexivity]. }
  assert (calls (handleClick doc e s)
          = calls s ++ [PreventDefault; StopPropagation; StopImmediatePropagation]) as Hcalls.
  { rewrite Hclick. unfold log. simpl. now rewrite <- !app_assoc. }
  repeat split; try assumption.
  - now rewrite Hclick.
  - intros html Hin. rewrite Hcalls in Hin. apply in_app_or in Hin as [Hin | Hin];
      [exact Hin|]. simpl in Hin. intuition discriminate.
Qed.

Lemma C10_body_and_root_are_ignored_witness :
  let s := mount Examples.replayPage in
  handleMouseOver 0 (Examples.mouseEvent mouseover (Some (Body 0))) s = s
  /\ calls (handleClick 0 (Examples.mouseEvent click (Some (DocumentElement 0))) s)
     = [PreventDefault; StopPropagation; StopImmediatePropagation].
Proof.
  intros s. split.
  - apply (@C10_body_and_root_are_ignored 0
             (Examples.mouseEvent mouseover (Some (Body 0))) s).
    right. left. reflexivity.
  - apply (@C10_body_and_root_are_ignored 0
             (Examples.mouseEvent click (Some (DocumentElement 0))) s).
    right. right. reflexivity.
Defined.





(** *** Handlers leave the listeners alone *)

Lemma hostFrame_refl (s : state) : hostFrame s s.
Proof. now split. Qed.

Lemma hostFrame_trans (s1 s2 s3 : state) :
  hostFrame s1 s2 -> hostFrame s2 s3 -> hostFrame s1 s3.
Proof. intros [] []. split; congruence. Qed.

Lemma cleanupHighlight_frame (s : state) : hostFrame s (cleanupHighlight s).
Proof. unfold cleanupHighlight. destruct (previousHighlightRef s); now split. Qed.

Lemma stopInspecting_frame (s : state) : hostFrame s (stopInspecting s).
Proof.
  unfold stopInspecting, cleanupHighlight, togglePlayPause, log. simpl.
  destruct (previousHighlightRef s); simpl;
    destruct (contentDocumentOf (replayIframe s)); simpl;
    destruct (wasPlayingRef s); now split.
Qed.

Lemma log_frame (c : call) (s : state) : hostFrame s (log c s).
Proof. now split. Qed.

Lemma handleElementSelected_frame (html : jsstring) (s : state) :
  hostFrame s (handleElementSelected html s).
Proof.
  unfold handleElementSelected, openModal.
  eapply hostFrame_trans; [apply stopInspecting_frame | apply log_frame].
Qed.

Lemma handleMouseOver_frame (doc : document) (e : event) (s : state) :
  hostFrame s (handleMouseOver doc e s).
Proof.
  unfold handleMouseOver. destruct (e_target e); [|apply hostFrame_refl].
  destruct (ignoredTarget doc (Some n)); [apply hostFrame_refl|].
  eapply hostFrame_trans; [apply cleanupHighlight_frame | now split].
Qed.

Lemma handleMouseOut_frame (e : event) (s : state) : hostFrame s (handleMouseOut e s).
Proof.
  unfold handleMouseOut.
  destruct (target_eqb _ _); [apply cleanupHighlight_frame | apply hostFrame_refl].
Qed.

Lemma handleClick_frame (doc : document) (e : event) (s : state) :
  hostFrame s (handleClick doc e s).
Proof.
  unfold handleClick. cbv zeta.
  assert (hostFrame s (s |> log PreventDefault |> log StopPropagation
                         |> log StopImmediatePropagation)) as Hlog by now split.
  destruct (e_target e); [|exact Hlog].
  destruct (ignoredTarget doc (Some n)); [exact Hlog|].
  eapply hostFrame_trans; [exact Hlog | apply handleElementSelected_frame].
Qed.

Lemma handleKeyDown_frame (e : event) (s : state) : hostFrame s (handleKeyDown e s).
Proof.
  unfold handleKeyDown.
  destruct (JS.eqb _ _); [apply stopInspecting_frame | apply hostFrame_refl].
Qed.

Lemma handleToggleInspect_frame (s : state) : hostFrame s (handleToggleInspect s).
Proof.
  unfold handleToggleInspect.
  destruct (isInspecting s); [apply stopInspecting_frame|].
  destruct (contentDocumentOf (replayIframe s)); [|apply hostFrame_refl].
  destruct (isPlaying s); now split.
Qed.

Lemma callHandler_frame (cb : callback) (e : event) (s : state) :
  hostFrame s (callHandler cb e s).
Proof.
  destruct cb as [[] doc run | id]; simpl;
    auto using handleMouseOver_frame, handleMouseOut_frame, handleClick_frame,
      handleKeyDown_frame, hostFrame_refl.
Qed.

Lemma dispatch_fold_frame (t : eventTarget) (e : event) (ls : list listener) (s : state) :
  hostFrame s
    (fold_left
       (fun s l =>
          if eventTarget_eqb (l_target l) t && eventType_eqb (l_type l) (e_type e)
          then callHandler (l_callback l) e s
          else s)
       ls s).
Proof.
  revert s. induction ls as [|l ls IH]; intros s; simpl; [apply hostFrame_refl|].
  eapply hostFrame_trans; [|apply IH].
  destruct (_ && _); [apply callHandler_frame | apply hostFrame_refl].
Qed.

Lemma dispatchEvent_frame (t : eventTarget) (e : event) (s : state) :
  hostFrame s (dispatchEvent t e s).
Proof. apply dispatch_fold_frame. Qed.

(** *** Adding and removing the five listeners *)

Lemma foreignOnly_map (F : list (eventTarget * eventType * nat * bool)) :
  foreignOnly (map foreignListener F).
Proof.
  intros l Hin. apply in_map_iff in Hin as ([[[t ty] id] cap] & <- & _). reflexivity.
Qed.

Lemma listener_eqb_own_foreign (l x : listener) :
  ownListener l = true -> ownListener x = false -> listener_eqb l x = false.
Proof.
  unfold ownListener, listener_eqb.
  destruct (l_callback l), (l_callback x); try discriminate. intros _ _.
  simpl. now rewrite andb_false_r.
Qed.

Lemma listener_eqb_refl (l : listener) : listener_eqb l l = true.
Proof.
  unfold listener_eqb.
  assert (eventTarget_eqb (l_target l) (l_target l) = true) as ->
    by (destruct (l_target l); simpl; auto using Nat.eqb_refl).
  assert (eventType_eqb (l_type l) (l_type l) = true) as ->
    by now destruct (l_type l).
  assert (callback_eqb (l_callback l) (l_callback l) = true) as ->
    by (destruct (l_callback l) as [[] ? ?|?]; simpl; now rewrite ?Nat.eqb_refl).
  now destruct (l_capture l).
Qed.

Lemma existsb_own_in_foreign (l : listener) (ls : list listener) :
  ownListener l = true -> foreignOnly ls -> existsb (listener_eqb l) ls = false.
Proof.
  intros Hl Hls. induction ls as [|x ls IH]; simpl; [reflexivity|].
  rewrite listener_eqb_own_foreign; auto using in_eq.
  apply IH. intros y Hy. apply Hls. now right.
Qed.

Lemma removeListener_after_foreign (l : listener) (ls rest : list listener) :
  ownListener l = true -> foreignOnly ls ->
  removeListener l (ls ++ l :: rest) = ls ++ rest.
Proof.
  intros Hl Hls. induction ls as [|x ls IH]; simpl.
  - now rewrite listener_eqb_refl.
  - rewrite listener_eqb_own_foreign; auto using in_eq.
    f_equal. apply IH. intros y Hy. apply Hls. now right.
Qed.

Lemma add_own (t : eventTarget) (ty : eventType) (fn : handlerName)
    (doc : document) (run : nat) (ls acc : list listener) :
  foreignOnly ls ->
  existsb (listener_eqb {| l_target := t; l_type := ty;
                           l_callback := Closure fn doc run; l_capture := true |}) acc
  = false ->
  addEventListener t ty (Closure fn doc run) true (ls ++ acc)
  = ls ++ acc ++ [{| l_target := t; l_type := ty;
                     l_callback := Closure fn doc run; l_capture := true |}].
Proof.
  intros Hls Hacc. unfold addEventListener.
  rewrite existsb_app, existsb_own_in_foreign, Hacc by (reflexivity || assumption).
  simpl. now rewrite app_assoc.
Qed.

(** The five [addEventListener] calls of the effect append its five
    listeners. *)
Lemma add_five (doc : document) (run : nat) (ls : list listener) :
  foreignOnly ls ->
  (ls |> addEventListener (IframeDocument doc) mouseover (Closure HandleMouseOver doc run) true
      |> addEventListener (IframeDocument doc) mouseout (Closure HandleMouseOut doc run) true
      |> addEventListener (IframeDocument doc) click (Closure HandleClick doc run) true
      |> addEventListener (IframeDocument doc) keydown (Closure HandleKeyDown doc run) true
      |> addEventListener ParentDocument keydown (Closure HandleKeyDown doc run) true)
  = ls ++ effectListeners doc run.
Proof.
  intros Hls. remember (ls ++ effectListeners doc run) as result eqn:Hresult.
  rewrite <- (app_nil_r ls).
  repeat (rewrite add_own;
          [| exact Hls
           | simpl; unfold listener_eqb; simpl; rewrite ?Nat.eqb_refl; reflexivity]).
  subst result. reflexivity.
Qed.

(** The five [removeEventListener] calls of the cleanup take them away
    again. *)
Lemma remove_five (doc : document) (run : nat) (ls : list listener) :
  foreignOnly ls ->
  ((ls ++ effectListeners doc run)
      |> removeEventListener (IframeDocument doc) mouseover (Closure HandleMouseOver doc run) true
      |> removeEventListener (IframeDocument doc) mouseout (Closure HandleMouseOut doc run) true
      |> removeEventListener (IframeDocument doc) click (Closure HandleClick doc run) true
      |> removeEventListener (IframeDocument doc) keydown (Closure HandleKeyDown doc run) true
      |> removeEventListener ParentDocument keydown (Closure HandleKeyDown doc run) true)
  = ls.
Proof.
  intros Hls. unfold removeEventListener, effectListeners.
  repeat rewrite removeListener_after_foreign by (reflexivity || assumption).
  apply app_nil_r.
Qed.


(** *** Renders *)

Lemma commitEffect_skip (s : state) :
  effectDep s = isInspecting s -> depsChanged s = false -> commitEffect s = s.
Proof.
  intros Hdep Hch. unfold commitEffect. rewrite Hdep, Hch.
  now destruct (isInspecting s).
Qed.

(** When a dependency has changed, the cleanup leaves the page's own
    listeners, and the effect runs on that. *)
Lemma commitEffect_run (p : page) (s : state) :
  attachedInv p s ->
  Bool.eqb (isInspecting s) (effectDep s) && negb (depsChanged s) = false ->
  commitEffect s
  = effect (s |> set_listeners (map foreignListener (p_listeners p))
              |> set_effectDep (isInspecting s)
              |> set_depsChanged false).
Proof.
  intros [Hls _] Hcond. unfold commitEffect. rewrite Hcond.
  destruct s as [insp wasp hl st fr pl eng css cur html ls cl dep ch nr cs].
  simpl in *. subst ls. destruct cl as [[doc run]|]; simpl.
  - unfold cleanup. simpl. rewrite remove_five by apply foreignOnly_map. reflexivity.
  - now rewrite app_nil_r.
Qed.

Lemma render_cases (p : page) (s : state) :
  attachedInv p s -> rendered p s (render s).
Proof.
  intros Hinv. unfold render.
  destruct (Bool.eqb (isInspecting s) (effectDep s) && negb (depsChanged s)) eqn:Hcond.
  - apply andb_true_iff in Hcond as [Hdep Hch].
    apply Bool.eqb_prop in Hdep. apply negb_true_iff in Hch.
    rewrite (@commitEffect_skip s), (@commitEffect_skip s) by congruence.
    now apply rendered_settled.
  - rewrite (commitEffect_run Hinv Hcond). unfold effect at 1. simpl.
    destruct (isInspecting s) eqn:Hi; simpl.
    + destruct (contentDocumentOf (replayIframe s)) as [doc|] eqn:Hdoc.
      * rewrite add_five by apply foreignOnly_map.
        rewrite commitEffect_skip by (simpl; congruence).
        pose proof (@rendered_attached p s doc Hi Hdoc) as H.
        destruct s; simpl in *; subst; exact H.
      * unfold commitEffect, effect. simpl.
        pose proof (@rendered_bailed_out p s Hi Hdoc) as H.
        destruct s; simpl in *; subst; exact H.
    + rewrite commitEffect_skip by (simpl; congruence).
      pose proof (@rendered_detached p s Hi) as H.
      destruct s; simpl in *; subst; exact H.
Qed.


(** *** Invariants of the reachable states *)

Lemma render_settled (p : page) (s : state) :
  attachedInv p s -> settledInv p (render s).
Proof.
  intros Hinv. destruct (render_cases Hinv) as [Hdep Hch | Hi | doc Hi Hdoc | Hi Hdoc].
  - now split.
  - repeat split; simpl; auto using app_nil_r.
  - repeat split; simpl; auto.
  - repeat split; simpl; auto using app_nil_r.
Qed.

Lemma attachedInv_frame (p : page) (s s' : state) :
  hostFrame s s' -> attachedInv p s -> attachedInv p s'.
Proof.
  intros [Fl Fc Fd _] [Hls Hdep].
  split; [rewrite Fl, Fc | rewrite Fd, Fc]; assumption.
Qed.

Lemma handle_attached (p : page) (i : input) (s : state) :
  attachedInv p s -> attachedInv p (handle i s).
Proof.
  apply attachedInv_frame.
  destruct i as [| t e | f playing newCallbacks]; simpl.
  - apply handleToggleInspect_frame.
  - apply dispatchEvent_frame.
  - now split.
Qed.

Lemma mount_settled (p : page) : settledInv p (mount p).
Proof. repeat split; simpl; auto using app_nil_r. Qed.

Lemma reachable_settled (p : page) (s : state) : reachable p s -> settledInv p s.
Proof.
  induction 1 as [| i s _ [IH _ _]].
  - apply mount_settled.
  - unfold step. now apply render_settled, handle_attached.
Qed.

(** One attach and its cleanup, on any listener list without listeners of
    this component. *)
Lemma effect_cleanup_parity (s : state) (doc : document) :
  isInspecting s = true ->
  contentDocumentOf (replayIframe s) = Some doc ->
  foreignOnly (listeners s) ->
  listeners (effect s) = listeners s ++ effectListeners doc (nextRun s)
  /\ effectCleanup (effect s) = Some (doc, nextRun s)
  /\ listeners (cleanup doc (nextRun s) (effect s)) = listeners s.
Proof.
  intros Hi Hdoc Hls. unfold effect. rewrite Hi, Hdoc. simpl.
  rewrite add_five by exact Hls. repeat split.
  unfold cleanup. simpl. now apply remove_five.
Qed.

(** C5: attach and detach are in parity. A run of the effect that attaches
    adds five listeners (mouseover, mouseout, click and keydown on the
    iframe's document, keydown on the parent document, all capturing), and
    the cleanup it returns removes exactly those. Between two inputs the
    registered listeners are the page's own plus, while inspecting, the five
    of the last run; outside inspection mode and after unmounting none of
    this component's listeners is left. *)
Theorem C5_listener_parity (p : page) (s : state) :
  reachable p s ->
  (isInspecting s = true ->
     exists doc run,
       effectCleanup s = Some (doc, run)
       /\ listeners s = map foreignListener (p_listeners p) ++ effectListeners doc run
       /\ listeners (cleanup doc run s) = map foreignListener (p_listeners p))
  /\ (isInspecting s = false ->
        listeners s = map foreignListener (p_listeners p)
        /\ filter ownListener (listeners s) = [])
  /\ listeners (unmount s) = map foreignListener (p_listeners p)
  /\ (forall doc run l, In l (effectListeners doc run) ->
        l_capture l = true /\ ownListener l = true)
  /\ (forall s0 doc,
        isInspecting s0 = true ->
        contentDocumentOf (replayIframe s0) = Some doc ->
        foreignOnly (listeners s0) ->
        listeners (effect s0) = listeners s0 ++ effectListeners doc (nextRun s0)
        /\ effectCleanup (effect s0) = Some (doc, nextRun s0)
        /\ listeners (cleanup doc (nextRun s0) (effect s0)) = listeners s0).
Proof.
  intros Hreach. destruct (reachable_settled Hreach) as [[Hls Hdep] Hset _].
  pose proof (@foreignOnly_map (p_listeners p)) as Hforeign.
  assert (forall doc run, effectCleanup s = Some (doc, run) ->
            listeners (cleanup doc run s) = map foreignListener (p_listeners p)) as Hcl.
  { intros doc run Hc. unfold cleanup. simpl. rewrite Hls, Hc. simpl attached.
    now apply remove_five. }
  split; [|split; [|split; [|split]]].
  - intros Hi. destruct (effectCleanup s) as [[doc run]|] eqn:Hc; [|congruence].
    exists doc, run. auto.
  - intros Hi. destruct (effectCleanup s) as [[doc run]|] eqn:Hc; [congruence|].
    simpl in Hls. rewrite app_nil_r in Hls. split; [exact Hls|].
    rewrite Hls. clear -Hforeign.
    induction (map foreignListener (p_listeners p)) as [|l ls IH]; [reflexivity|].
    simpl. rewrite (Hforeign l) by apply in_eq.
    apply IH. intros x Hx. apply Hforeign. now right.
  - unfold unmount. destruct (effectCleanup s) as [[doc run]|] eqn:Hc.
    + simpl. now apply Hcl.
    + simpl in Hls. now rewrite app_nil_r in Hls.
  - intros doc run l Hin. simpl in Hin.
    repeat (destruct Hin as [<- | Hin]; [now split|]). contradiction.
  - intros s0 doc. apply effect_cleanup_parity.
Qed.

Lemma C5_listener_parity_witness :
  let s := step ClickButton (mount Examples.replayPage) in
  isInspecting s = true
  /\ exists doc run,
       effectCleanup s = Some (doc, run)
       /\ listeners s = map foreignListener (p_listeners Examples.replayPage)
                        ++ effectListeners doc run
       /\ listeners (cleanup doc run s) = map foreignListener (p_listeners Examples.replayPage).
Proof.
  intros s. split; [reflexivity|].
  apply (@C5_listener_parity Examples.replayPage s).
  - apply reachable_step, reachable_mount.
  - reflexivity.
Defined.


(** *** Invariants, handler by handler *)

Section StepInvariant.

Variable P : state -> Prop.

Hypothesis P_eventCalls : forall s,
  P s -> P (s |> log PreventDefault |> log StopPropagation
              |> log StopImmediatePropagation).
Hypothesis P_openModal : forall outer s,
  P s -> P (openModal (JS.slice 0 10000 outer) s).
Hypothesis P_stopInspecting : forall s, P s -> P (stopInspecting s).
Hypothesis P_handleMouseOver : forall doc e s, P s -> P (handleMouseOver doc e s).
Hypothesis P_handleMouseOut : forall e s, P s -> P (handleMouseOut e s).
Hypothesis P_handleToggleInspect : forall s, P s -> P (handleToggleInspect s).
Hypothesis P_context : forall f playing newCallbacks s,
  P s -> P (s |> set_replayIframe f |> set_isPlaying playing
              |> set_depsChanged (depsChanged s || newCallbacks)).
Hypothesis P_commitEffect : forall s, P s -> P (commitEffect s).

Lemma callHandler_invariant (cb : callback) (e : event) (s : state) :
  P s -> P (callHandler cb e s).
Proof.
  intros H. destruct cb as [[] doc run | id]; simpl; auto.
  - unfold handleClick. cbv zeta.
    destruct (e_target e) as [target|]; [|auto].
    destruct (ignoredTarget doc (Some target)); [auto|].
    unfold handleElementSelected.
    apply (P_openModal
             (outerHTML (s |> log PreventDefault |> log StopPropagation
                           |> log StopImmediatePropagation) target)).
    auto.
  - unfold handleKeyDown. destruct (JS.eqb _ _); auto.
Qed.

Lemma dispatchEvent_invariant (t : eventTarget) (e : event) (s : state) :
  P s -> P (dispatchEvent t e s).
Proof.
  unfold dispatchEvent. generalize (listeners s) as ls. intros ls. revert s.
  induction ls as [|l ls IH]; intros s H; simpl; [exact H|].
  apply IH. destruct (_ && _); [now apply callHandler_invariant | exact H].
Qed.

Lemma step_invariant (i : input) (s : state) : P s -> P (step i s).
Proof.
  intros H. unfold step, render. do 2 apply P_commitEffect.
  destruct i as [| t e | f playing newCallbacks]; simpl; auto.
  now apply dispatchEvent_invariant.
Qed.

Lemma reachable_invariant (p : page) (s : state) :
  P (mount p) -> reachable p s -> P s.
Proof.
  intros H0. induction 1 as [| i s _ IH]; [exact H0 | now apply step_invariant].
Qed.

End StepInvariant.

(** *** Stopping *)

Lemma stopInspecting_spec (s : state) :
  isInspecting (stopInspecting s) = false
  /\ (forall el, previousHighlightRef s = Some el ->
        styleAttr (stopInspecting s) el = previousStyleRef s
        /\ cssText (stopInspecting s) el = reserialize (engine s) (previousStyleRef s))
  /\ previousHighlightRef (stopInspecting s) = None
  /\ (forall d, contentDocumentOf (replayIframe s) = Some d ->
        bodyCursor (stopInspecting s) d = [])
  /\ calls (stopInspecting s)
     = calls s ++ (if wasPlayingRef s then [TogglePlayPause true] else [])
  /\ isPlaying (stopInspecting s) = (if wasPlayingRef s then true else isPlaying s)
  /\ wasPlayingRef (stopInspecting s) = false.
Proof.
  unfold stopInspecting, cleanupHighlight, togglePlayPause, log, cssText. simpl.
  destruct (previousHighlightRef s) as [el|] eqn:Hel; simpl;
    destruct (contentDocumentOf (replayIframe s)) as [d|] eqn:Hd; simpl;
    destruct (wasPlayingRef s) eqn:Hw; simpl;
    (split; [reflexivity|]);
    (split; [intros ? Hx; first [discriminate Hx
                                | injection Hx as <-; now rewrite ?upd_same] | ]);
    (split; [first [reflexivity | assumption] |]);
    (split; [intros ? Hx; first [discriminate Hx
                                | injection Hx as <-; unfold upd;
                                  now rewrite ?Nat.eqb_refl] | ]);
    auto using app_nil_r.
Qed.


(** Listeners of other code do nothing to the component. *)
Lemma dispatch_fold_foreign (t : eventTarget) (e : event) (ls : list listener) (s : state) :
  foreignOnly ls ->
  fold_left
    (fun s l =>
       if eventTarget_eqb (l_target l) t && eventType_eqb (l_type l) (e_type e)
       then callHandler (l_callback l) e s
       else s)
    ls s
  = s.
Proof.
  intros Hls. induction ls as [|l ls IH]; simpl; [reflexivity|].
  assert (callHandler (l_callback l) e s = s) as ->.
  { pose proof (Hls l (in_eq _ _)) as Hl. unfold ownListener in Hl.
    destruct (l_callback l); [discriminate | reflexivity]. }
  destruct (_ && _); apply IH; intros x Hx; apply Hls; now right.
Qed.

(** A keydown at the inspected document or at the parent document reaches
    [handleKeyDown], once. *)
Lemma dispatch_keydown (p : page) (s : state) (doc : document) (run : nat)
    (t : eventTarget) (e : event) :
  attachedInv p s ->
  effectCleanup s = Some (doc, run) ->
  t = ParentDocument \/ t = IframeDocument doc ->
  e_type e = keydown ->
  dispatchEvent t e s = handleKeyDown e s.
Proof.
  intros [Hls _] Hc Ht He. unfold dispatchEvent. rewrite Hls, Hc.
  rewrite fold_left_app.
  rewrite (@dispatch_fold_foreign t e _ s (@foreignOnly_map (p_listeners p))).
  simpl. rewrite He.
  destruct Ht as [-> | ->]; simpl; rewrite ?Nat.eqb_refl; reflexivity.
Qed.




(** *** Playback *)

(** Switching inspection on pauses playback, and sets the was-playing flag,
    exactly when playback is active. *)
Lemma handleToggleInspect_pauses (s : state) (doc : document) :
  isInspecting s = false ->
  contentDocumentOf (replayIframe s) = Some doc ->
  isInspecting (handleToggleInspect s) = true
  /\ calls (handleToggleInspect s)
     = calls s ++ (if isPlaying s then [TogglePlayPause false] else [])
  /\ wasPlayingRef (handleToggleInspect s) = (isPlaying s || wasPlayingRef s)
  /\ isPlaying (handleToggleInspect s) = false.
Proof.
  intros Hi Hdoc. unfold handleToggleInspect. rewrite Hi, Hdoc.
  destruct (isPlaying s) eqn:Hp; simpl; auto using app_nil_r.
Qed.

(** With the flag clear and playback not active when inspection is switched
    on, stopping right away calls nothing. *)
Lemma stop_after_idle_toggle (s : state) (doc : document) :
  isInspecting s = false ->
  contentDocumentOf (replayIframe s) = Some doc ->
  wasPlayingRef s = false ->
  isPlaying s = false ->
  calls (stopInspecting (handleToggleInspect s)) = calls s
  /\ isPlaying (stopInspecting (handleToggleInspect s)) = false.
Proof.
  intros Hi Hdoc Hw Hp.
  destruct (handleToggleInspect_pauses s Hi Hdoc) as (_ & Hc & Hf & Hpl).
  destruct (stopInspecting_spec (handleToggleInspect s)) as (_ & _ & _ & _ & Sc & Sp & _).
  rewrite Sc, Sp, Hf, Hc, Hp, Hw, Hpl. simpl. now rewrite !app_nil_r.
Qed.

(** *** The page's inline styles *)


Lemma cssText_styleFrame (s s' : state) (n : node) :
  styleFrame s s' -> cssText s' n = cssText s n.
Proof. intros [He Ha _ _]. unfold cssText. now rewrite He, Ha. Qed.














(** *** The was-playing flag *)

Lemma keepsFlag_refl (s : state) : keepsFlag s s.
Proof. split; auto. Qed.

Lemma keepsFlag_trans (s1 s2 s3 : state) :
  keepsFlag s1 s2 -> keepsFlag s2 s3 -> keepsFlag s1 s3.
Proof.
  intros [A1 [A2 | A2]] [B1 B2]; split; auto.
  destruct B2 as [B2 | B2]; [left; congruence | auto].
Qed.

Lemma stopInspecting_keepsFlag (s : state) : keepsFlag s (stopInspecting s).
Proof.
  destruct (stopInspecting_spec s) as (H & _). split; auto.
Qed.

Lemma callHandler_keepsFlag (cb : callback) (e : event) (s : state) :
  keepsFlag s (callHandler cb e s).
Proof.
  destruct cb as [[] doc run | id]; simpl; try apply keepsFlag_refl.
  - unfold handleMouseOver. destruct (e_target e); [|apply keepsFlag_refl].
    destruct (ignoredTarget _ _); [apply keepsFlag_refl|].
    unfold cleanupHighlight. destruct (previousHighlightRef s); split; simpl; auto.
  - unfold handleMouseOut, cleanupHighlight.
    destruct (target_eqb _ _); [|apply keepsFlag_refl].
    destruct (previousHighlightRef s); split; simpl; auto.
  - unfold handleClick. cbv zeta.
    destruct (e_target e); [|split; simpl; auto].
    destruct (ignoredTarget _ _); [split; simpl; auto|].
    unfold handleElementSelected, openModal.
    destruct (stopInspecting_spec
                (s |> log PreventDefault |> log StopPropagation
                   |> log StopImmediatePropagation)) as (H & _).
    split; simpl; auto.
  - unfold handleKeyDown.
    destruct (JS.eqb _ _); [apply stopInspecting_keepsFlag | apply keepsFlag_refl].
Qed.

Lemma dispatchEvent_keepsFlag (t : eventTarget) (e : event) (s : state) :
  keepsFlag s (dispatchEvent t e s).
Proof.
  unfold dispatchEvent. generalize (listeners s) as ls. intros ls. revert s.
  induction ls as [|l ls IH]; intros s; simpl; [apply keepsFlag_refl|].
  eapply keepsFlag_trans; [|apply IH].
  destruct (_ && _); [apply callHandler_keepsFlag | apply keepsFlag_refl].
Qed.

Lemma commitEffect_keepsFlag (s : state) : keepsFlag s (commitEffect s).
Proof.
  unfold commitEffect, effect, cleanup.
  destruct (_ && _); [apply keepsFlag_refl|].
  destruct (effectCleanup s) as [[doc run]|]; simpl;
    destruct (isInspecting s) eqn:Hi; simpl;
    try destruct (contentDocumentOf (replayIframe s)); split; simpl; auto.
Qed.

Lemma render_keepsFlag (s : state) : keepsFlag s (render s).
Proof.
  unfold render. eapply keepsFlag_trans; apply commitEffect_keepsFlag.
Qed.

(** Once set, the flag stays set for as long as inspection goes on: it is
    [stopInspecting] alone that clears it. *)
Lemma wasPlaying_kept_while_inspecting (i : input) (s : state) :
  wasPlayingRef s = true ->
  isInspecting (step i s) = true ->
  wasPlayingRef (step i s) = true.
Proof.
  intros Hw Hi. unfold step in *.
  destruct (render_keepsFlag (handle i s)) as [R1 [R2 | R2]]; [|congruence].
  rewrite R2.
  destruct (isInspecting (handle i s)) eqn:Hh; [|rewrite R1 in Hi; congruence].
  destruct i as [| t e | f playing newCallbacks]; simpl in *.
  - unfold handleToggleInspect in *. destruct (isInspecting s).
    + destruct (stopInspecting_spec s) as (H & _). congruence.
    + destruct (contentDocumentOf _); [|exact Hw].
      destruct (isPlaying s); simpl; auto.
  - destruct (dispatchEvent_keepsFlag t e s) as [_ [D | D]]; congruence.
  - exact Hw.
Qed.

Lemma commitEffect_stays (s : state) (doc : document) :
  isInspecting s = true ->
  contentDocumentOf (replayIframe s) = Some doc ->
  isInspecting (commitEffect s) = true
  /\ contentDocumentOf (replayIframe (commitEffect s)) = Some doc.
Proof.
  intros Hi Hdoc. unfold commitEffect.
  destruct (_ && _); [auto|].
  destruct (effectCleanup s) as [[d r]|]; unfold effect, cleanup; simpl;
    rewrite Hi; simpl; rewrite Hdoc; simpl; auto.
Qed.

(** Every inspection that starts during playback and is ended by
    [stopInspecting] resumes it: the flag set at the start is still set. *)
Lemma playing_before_inspection_is_flagged (s : state) (doc : document) :
  isInspecting s = false ->
  contentDocumentOf (replayIframe s) = Some doc ->
  isPlaying s = true ->
  isInspecting (step ClickButton s) = true
  /\ wasPlayingRef (step ClickButton s) = true.
Proof.
  intros Hi Hdoc Hp.
  destruct (handleToggleInspect_pauses s Hi Hdoc) as (T1 & _ & T3 & _).
  rewrite Hp in T3. simpl in T3.
  assert (contentDocumentOf (replayIframe (handleToggleInspect s)) = Some doc) as Hdoc'.
  { unfold handleToggleInspect. now rewrite Hi, Hdoc, Hp. }
  unfold step. simpl handle. unfold render.
  destruct (commitEffect_stays _ T1 Hdoc') as [C1 C1'].
  destruct (commitEffect_stays _ C1 C1') as [C2 _].
  split; [exact C2|].
  destruct (render_keepsFlag (handleToggleInspect s)) as [_ [R | R]];
    unfold render in R; congruence.
Qed.


(** C6: the was-playing flag outlives an inspection that the effect ends
    itself. Inspection is switched on during playback (which pauses it and
    sets the flag); the replay context then hands out no iframe, so the
    effect runs again, finds no document and only clears the inspecting
    flag: playback stays paused and the flag stays set. With the iframe
    back and playback still paused, inspection is switched on again, which
    calls nothing; Escape then calls [togglePlayPause(true)]. The flag is
    left set in the same way when the iframe is gone by the time the effect
    of the request runs. *)
Theorem C6_stale_wasPlaying_starts_playback :
  let vanished :=
    render (set_replayIframe None (handleToggleInspect (mount Examples.replayPage))) in
  let ended :=
    run [ClickButton;
         ContextChange None false true;
         ContextChange (Some Examples.replayFrame) false false]
      (mount Examples.replayPage) in
  let inspecting := step ClickButton ended in
  let stopped := step (DomEvent ParentDocument (Examples.keyEvent "Escape")) inspecting in
  (isInspecting vanished = false
   /\ wasPlayingRef vanished = true
   /\ calls vanished = [TogglePlayPause false])
  /\ (isInspecting ended = false
      /\ isPlaying ended = false
      /\ wasPlayingRef ended = true
      /\ calls ended = [TogglePlayPause false])
  /\ (isInspecting inspecting = true
      /\ isPlaying inspecting = false
      /\ calls inspecting = calls ended)
  /\ (isInspecting stopped = false
      /\ calls stopped = calls inspecting ++ [TogglePlayPause true]
      /\ isPlaying stopped = true).
Proof. vm_compute. repeat split. Qed.

End ButtonProps.

(** ** Sizes and the two truncations *)

Module Truncation.

Import Spec ReplayDOMInspectButton.

Lemma length_app (a b : jsstring) : JS.length (a ++ b) = (JS.length a + JS.length b)%Z.
Proof. unfold JS.length. rewrite List.length_app. lia. Qed.

Lemma length_slice_0 (n : Z) (s : jsstring) :
  (0 <= n)%Z -> JS.length (JS.slice 0 n s) = Z.min n (JS.length s).
Proof.
  intros Hn. rewrite JSFacts.slice_0 by exact Hn.
  unfold JS.length. rewrite length_firstn. lia.
Qed.

(** A shorter slice of a longer slice is the shorter slice. *)
Lemma slice_0_slice_0 (m n : Z) (s : jsstring) :
  (0 <= m <= n)%Z -> JS.slice 0 m (JS.slice 0 n s) = JS.slice 0 m s.
Proof.
  intros H. rewrite !JSFacts.slice_0 by lia.
  rewrite firstn_firstn. f_equal. lia.
Qed.

(** The preview never has more than 203 code units: the input has its own
    length up to 200, and 203 beyond. *)
Theorem htmlPreview_length (selectedHtml : jsstring) :
  JS.length (ReplayInspectQueryModal.htmlPreview selectedHtml)
  = (if (JS.length selectedHtml <=? 200)%Z then JS.length selectedHtml else 203%Z)
  /\ (JS.length (ReplayInspectQueryModal.htmlPreview selectedHtml) <= 203)%Z.
Proof.
  unfold ReplayInspectQueryModal.htmlPreview, JS.concat.
  pose proof (JSFacts.length_nonneg selectedHtml) as Hl.
  destruct (Z.gtb_spec (JS.length selectedHtml) 200) as [Hlong | Hshort].
  - replace (JS.length selectedHtml <=? 200)%Z with false
      by (symmetry; apply Z.leb_gt; lia).
    rewrite length_app, length_slice_0 by lia.
    change (JS.length (JS.lit "...")) with 3%Z. lia.
  - replace (JS.length selectedHtml <=? 200)%Z with true
      by (symmetry; apply Z.leb_le; lia).
    lia.
Qed.

(** The prompt is 328 code units of fixed text around the query and the
    markup; whatever the markup, it is never more than 5,344 code units
    longer than the query. *)
Theorem buildSeerPrompt_length (userQuery html : jsstring) :
  ((JS.length html <= 5000)%Z ->
     JS.length (buildSeerPrompt userQuery html)
     = (JS.length userQuery + JS.length html + 328)%Z)
  /\ ((5000 < JS.length html)%Z ->
        JS.length (buildSeerPrompt userQuery html) = (JS.length userQuery + 5344)%Z)
  /\ (JS.length (buildSeerPrompt userQuery html) <= JS.length userQuery + 5344)%Z.
Proof.
  unfold buildSeerPrompt, JS.concat.
  pose proof (JSFacts.length_nonneg html) as Hl.
  destruct (Z.gtb_spec (JS.length html) 5000) as [Hlong | Hshort];
    rewrite !length_app, ?length_slice_0 by lia;
    repeat match goal with
           | |- context [JS.length (JS.lit ?t)] =>
               let n := eval vm_compute in (JS.length (JS.lit t)) in
               change (JS.length (JS.lit t)) with n
           end;
    change (JS.length nl) with 1%Z; lia.
Qed.

Lemma buildSeerPrompt_length_witness :
  JS.length (buildSeerPrompt (JS.lit "why?") (JS.lit "<b>hi</b>")) = (4 + 9 + 328)%Z
  /\ JS.length (buildSeerPrompt (JS.lit "why?") (repeat 120%N (N.to_nat 7000)))
     = (4 + 5344)%Z.
Proof.
  split.
  - apply (proj1 (buildSeerPrompt_length (JS.lit "why?") (JS.lit "<b>hi</b>"))).
    vm_compute. discriminate.
  - apply (proj1 (proj2 (buildSeerPrompt_length (JS.lit "why?")
                           (repeat 120%N (N.to_nat 7000))))).
    vm_compute. reflexivity.
Defined.

(** The limit of 10,000 code units applied on click does not show in what
    is made of the markup afterwards: the prompt and the preview built from
    the captured markup are those built from the whole [outerHTML]. *)
Theorem capture_limit_is_invisible (userQuery outer : jsstring) :
  buildSeerPrompt userQuery (JS.slice 0 10000 outer) = buildSeerPrompt userQuery outer
  /\ ReplayInspectQueryModal.htmlPreview (JS.slice 0 10000 outer)
     = ReplayInspectQueryModal.htmlPreview outer.
Proof.
  pose proof (JSFacts.length_nonneg outer) as Hl.
  unfold buildSeerPrompt, ReplayInspectQueryModal.htmlPreview.
  rewrite !length_slice_0, !slice_0_slice_0 by lia.
  split.
  - destruct (Z.gtb_spec (JS.length outer) 5000) as [H | H].
    + replace (Z.min 10000 (JS.length outer) >? 5000)%Z with true
        by (symmetry; apply Z.gtb_lt; lia). reflexivity.
    + replace (Z.min 10000 (JS.length outer) >? 5000)%Z with false
        by (symmetry; rewrite Z.gtb_ltb; apply Z.ltb_ge; lia).
      now rewrite JSFacts.slice_0_short by lia.
  - destruct (Z.gtb_spec (JS.length outer) 200) as [H | H].
    + replace (Z.min 10000 (JS.length outer) >? 200)%Z with true
        by (symmetry; apply Z.gtb_lt; lia). reflexivity.
    + replace (Z.min 10000 (JS.length outer) >? 200)%Z with false
        by (symmetry; rewrite Z.gtb_ltb; apply Z.ltb_ge; lia).
      now rewrite JSFacts.slice_0_short by lia.
Qed.

End Truncation.

(** ** The modal over time *)

Module ModalSession.

Import Spec ReplayInspectQueryModal.

Lemma modalRun_app (a b : list input) (query : jsstring) :
  modalRun (a ++ b) query = modalRun a query ++ modalRun b (queryAfter a query).
Proof.
  revert query. induction a as [|i a IH]; intros query; simpl; [reflexivity|].
  now rewrite IH, app_assoc.
Qed.

Lemma queryAfter_app (a b : list input) (query : jsstring) :
  queryAfter (a ++ b) query = queryAfter b (queryAfter a query).
Proof. apply fold_left_app. Qed.

Lemma queryAfter_kept (inputs : list input) (query : jsstring) :
  Forall keepsQuery inputs -> queryAfter inputs query = query.
Proof.
  induction 1 as [|i inputs Hi _ IH]; [reflexivity|].
  destruct i; simpl in *; [contradiction | exact IH | exact IH].
Qed.

(** A submit acts on what was typed last: after any inputs, a change of
    the input to [value] and further inputs that are no changes, submitting
    makes the calls of [handleSubmit value]. *)
Theorem submit_uses_last_value
    (before after : list input) (value query : jsstring) :
  Forall keepsQuery after ->
  modalRun (before ++ Change value :: after ++ [Submit]) query
  = modalRun (before ++ Change value :: after) query ++ map Call (handleSubmit value).
Proof.
  intros Hafter.
  replace (before ++ Change value :: after ++ [Submit])
    with ((before ++ Change value :: after) ++ [Submit])
    by (rewrite <- app_assoc; reflexivity).
  rewrite modalRun_app. f_equal.
  rewrite queryAfter_app. simpl.
  replace (queryAfter (Change value :: after) (queryAfter before query))
    with (queryAfter after value) by reflexivity.
  rewrite queryAfter_kept by exact Hafter. simpl. now rewrite app_nil_r.
Qed.

Lemma submit_uses_last_value_witness :
  modalRun [Change (JS.lit "wh"); Change (JS.lit " why? "); Cancel; Submit] initialQuery
  = modalRun [Change (JS.lit "wh"); Change (JS.lit " why? "); Cancel] initialQuery
    ++ map Call (handleSubmit (JS.lit " why? ")).
Proof.
  apply (@submit_uses_last_value [Change (JS.lit "wh")] [Cancel]
           (JS.lit " why? ") initialQuery).
  repeat constructor.
Defined.

Lemma onSubmit_in_run (inputs : list input) (query q : jsstring) :
  In (Call (OnSubmit q)) (modalRun inputs query) ->
  q <> []
  /\ (q = JS.trim query \/ exists value, In (Change value) inputs /\ q = JS.trim value).
Proof.
  revert query. induction inputs as [|i inputs IH]; intros query; simpl; [contradiction|].
  intros Hin. apply in_app_or in Hin as [Hin | Hin].
  - destruct i; simpl in Hin; try contradiction.
    + unfold handleSubmit in Hin. simpl in Hin.
      destruct Hin as [Hin | Hin]; [discriminate|].
      destruct (JS.trim query) as [|c r] eqn:Ht; simpl in Hin; [contradiction|].
      destruct Hin as [[= <-] | []]. split; [discriminate | now left].
    + destruct Hin as [Hin | []]. discriminate.
  - destruct (IH _ Hin) as [Hne [Hq | (value & Hv & Hq)]].
    + split; [exact Hne|]. destruct i; simpl in Hq; eauto.
    + split; [exact Hne|]. eauto.
Qed.

(** Whatever is typed, submitted or cancelled in a freshly opened modal:
    [onSubmit] only ever receives a non-empty string, which is the trimmed
    form of a value that was typed. *)
Theorem modal_submits_only_typed_text (inputs : list input) (q : jsstring) :
  In (Call (OnSubmit q)) (modalRun inputs initialQuery) ->
  q <> []
  /\ exists value, In (Change value) inputs /\ trimmed_of value q.
Proof.
  intros Hin. destruct (@onSubmit_in_run _ _ _ Hin) as [Hne [Hq | (value & Hv & Hq)]].
  - exfalso. apply Hne. rewrite Hq. reflexivity.
  - split; [exact Hne|]. exists value. split; [exact Hv|].
    rewrite Hq. apply JSFacts.trim_trimmed.
Qed.

Lemma modal_submits_only_typed_text_witness :
  JS.lit "why?" <> []
  /\ exists value,
       In (Change value) [Submit; Change (JS.lit " why? "); Submit]
       /\ trimmed_of value (JS.lit "why?").
Proof.
  apply (@modal_submits_only_typed_text [Submit; Change (JS.lit " why? "); Submit]).
  vm_compute. right. right. left. reflexivity.
Defined.

End ModalSession.

(** ** The inspect button over time *)

Module ButtonSessions.

Import Spec ReplayDOMInspectButton ButtonProps.

(** *** Where events arrive *)

(** With the listeners of a run attached, an event at the inspected
    document reaches the handler for its type, once. *)
Lemma dispatch_at_inspected (p : page) (s : state) (doc : document) (run : nat)
    (e : event) :
  attachedInv p s ->
  effectCleanup s = Some (doc, run) ->
  dispatchEvent (IframeDocument doc) e s
  = match e_type e with
    | mouseover => handleMouseOver doc e s
    | mouseout => handleMouseOut e s
    | click => handleClick doc e s
    | keydown => handleKeyDown e s
    end.
Proof.
  intros [Hls _] Hc. unfold dispatchEvent. rewrite Hls, Hc.
  rewrite fold_left_app.
  rewrite (@dispatch_fold_foreign (IframeDocument doc) e _ s
             (@foreignOnly_map (p_listeners p))).
  simpl. rewrite !Nat.eqb_refl. destruct (e_type e); reflexivity.
Qed.

(** Without listeners of the component, an event changes nothing. *)
Lemma dispatch_detached (p : page) (s : state) (t : eventTarget) (e : event) :
  attachedInv p s ->
  effectCleanup s = None ->
  dispatchEvent t e s = s.
Proof.
  intros [Hls _] Hc. unfold dispatchEvent. rewrite Hls, Hc. simpl attached.
  rewrite app_nil_r. apply dispatch_fold_foreign, foreignOnly_map.
Qed.

Lemma render_settled_state (p : page) (s : state) : settledInv p s -> render s = s.
Proof.
  intros [_ Hset Hch]. unfold render. now rewrite !(@commitEffect_skip s).
Qed.

(** Outside inspection mode the component ignores every DOM event: hovers,
    clicks and keys, at the iframe's document or at the parent document,
    leave the state as it is. *)
Theorem dom_events_ignored_when_not_inspecting
    (p : page) (s : state) (t : eventTarget) (e : event) :
  reachable p s ->
  isInspecting s = false ->
  step (DomEvent t e) s = s.
Proof.
  intros Hreach Hi. pose proof (reachable_settled Hreach) as Hset.
  destruct Hset as [Hinv Hdep Hch].
  assert (effectCleanup s = None) as Hc.
  { destruct Hinv as [_ Hd]. rewrite Hdep, Hi in Hd.
    destruct (effectCleanup s); [discriminate | reflexivity]. }
  unfold step. simpl handle. rewrite (dispatch_detached t e Hinv Hc).
  apply (@render_settled_state p). now split.
Qed.

Lemma dom_events_ignored_when_not_inspecting_witness :
  let s := run [ClickButton; DomEvent ParentDocument (Examples.keyEvent "Escape")]
             (mount Examples.replayPage) in
  step (DomEvent (IframeDocument 0)
          (Examples.mouseEvent click (Some Examples.saveButton))) s = s.
Proof.
  intros s.
  apply (@dom_events_ignored_when_not_inspecting Examples.replayPage).
  - do 2 apply reachable_step. apply reachable_mount.
  - reflexivity.
Defined.

(** *** The highlight *)








(** *** The call log *)

Lemma stopInspecting_calls (s : state) :
  calls (stopInspecting s)
  = calls s ++ (if wasPlayingRef s then [TogglePlayPause true] else [])
  /\ wasPlayingRef (stopInspecting s) = false.
Proof. destruct (stopInspecting_spec s) as (_ & _ & _ & _ & Hc & _ & Hw). auto. Qed.

Lemma handleMouseOver_callsFrame (doc : document) (e : event) (s : state) :
  callsFrame s (handleMouseOver doc e s).
Proof.
  unfold handleMouseOver, cleanupHighlight.
  destruct (e_target e) as [target|]; [|now split].
  destruct (ignoredTarget doc (Some target)); [now split|].
  destruct (previousHighlightRef s); now split.
Qed.

Lemma handleMouseOut_callsFrame (e : event) (s : state) :
  callsFrame s (handleMouseOut e s).
Proof.
  unfold handleMouseOut, cleanupHighlight.
  destruct (target_eqb _ _); [|now split].
  destruct (previousHighlightRef s); now split.
Qed.

Lemma commitEffect_callsFrame (s : state) : callsFrame s (commitEffect s).
Proof.
  unfold commitEffect, effect, cleanup.
  destruct (_ && _); [now split|].
  destruct (effectCleanup s) as [[doc run]|]; simpl;
    destruct (isInspecting s); simpl;
    try destruct (contentDocumentOf (replayIframe s)); now split.
Qed.

Lemma handleToggleInspect_start (s : state) (doc : document) :
  isInspecting s = false ->
  contentDocumentOf (replayIframe s) = Some doc ->
  calls (handleToggleInspect s)
  = calls s ++ (if isPlaying s then [TogglePlayPause false] else [])
  /\ wasPlayingRef (handleToggleInspect s) = (isPlaying s || wasPlayingRef s).
Proof.
  intros Hi Hdoc. destruct (handleToggleInspect_pauses s Hi Hdoc) as (_ & Hc & Hw & _).
  auto.
Qed.

Lemma playbackLog_app (paused : bool) (a b : list call) :
  playbackLog paused (a ++ b)
  = match playbackLog paused a with
    | Some paused' => playbackLog paused' b
    | None => None
    end.
Proof.
  revert paused. induction a as [|c a IH]; intros paused; simpl; [reflexivity|].
  destruct c as [[]| | | | | |]; try apply IH.
  destruct paused; [apply IH | reflexivity].
Qed.

(** The component resumes playback only after pausing it: reading the
    calls made so far, every [togglePlayPause(true)] has a
    [togglePlayPause(false)] as the [togglePlayPause] call before it, and
    the was-playing flag is set exactly when the last such call was a
    pause. *)
Theorem resumes_only_what_it_paused (p : page) (s : state) :
  reachable p s ->
  playbackLog false (calls s) = Some (wasPlayingRef s)
  /\ forall before after,
       calls s = before ++ TogglePlayPause true :: after ->
       playbackLog false before = Some true.
Proof.
  intros Hreach.
  assert (playbackLog false (calls s) = Some (wasPlayingRef s)) as Hlog.
  { revert Hreach.
    apply reachable_invariant
      with (P := fun s0 => playbackLog false (calls s0) = Some (wasPlayingRef s0));
      try reflexivity.
    - intros s0 H. unfold log. simpl. rewrite <- !app_assoc. simpl.
      rewrite playbackLog_app, H. reflexivity.
    - intros outer s0 H. unfold openModal, log. simpl.
      rewrite playbackLog_app, H. reflexivity.
    - intros s0 H. destruct (stopInspecting_calls s0) as [-> ->].
      rewrite playbackLog_app, H. now destruct (wasPlayingRef s0).
    - intros doc e s0 H. destruct (handleMouseOver_callsFrame doc e s0) as [-> ->].
      exact H.
    - intros e s0 H. destruct (handleMouseOut_callsFrame e s0) as [-> ->]. exact H.
    - intros s0 H. unfold handleToggleInspect at 1 2.
      destruct (isInspecting s0) eqn:Hi.
      + destruct (stopInspecting_calls s0) as [-> ->].
        rewrite playbackLog_app, H. now destruct (wasPlayingRef s0).
      + destruct (contentDocumentOf (replayIframe s0)) as [doc|] eqn:Hdoc; [|exact H].
        destruct (isPlaying s0); simpl; [|exact H].
        rewrite playbackLog_app, H. reflexivity.
    - intros f playing newCallbacks s0 H. exact H.
    - intros s0 H. destruct (commitEffect_callsFrame s0) as [-> ->]. exact H. }
  split; [exact Hlog|].
  intros before after Hsplit. rewrite Hsplit, playbackLog_app in Hlog.
  destruct (playbackLog false before) as [[]|]; [reflexivity | | discriminate].
  simpl in Hlog. discriminate.
Qed.

Lemma resumes_only_what_it_paused_witness :
  let s := run [ClickButton; DomEvent ParentDocument (Examples.keyEvent "Escape")]
             (mount Examples.replayPage) in
  playbackLog false (calls s) = Some (wasPlayingRef s)
  /\ playbackLog false [TogglePlayPause false] = Some true.
Proof.
  intros s.
  destruct (@resumes_only_what_it_paused Examples.replayPage s) as [Hlog Hsplit].
  { do 2 apply reachable_step. apply reachable_mount. }
  split; [exact Hlog|].
  apply (Hsplit [TogglePlayPause false] []). reflexivity.
Defined.

(** No modal is ever opened with more than 10,000 code units of markup. *)
Theorem modals_get_at_most_10000 (p : page) (s : state) :
  reachable p s -> modalsWithin 10000 (calls s).
Proof.
  apply reachable_invariant with (P := fun s0 => modalsWithin 10000 (calls s0)).
  - intros s0 H html Hin. apply H. unfold log in Hin. simpl in Hin.
    repeat (apply in_app_or in Hin as [Hin | [Hin | []]]; [|discriminate]).
    exact Hin.
  - intros outer s0 H html Hin. unfold openModal, log in Hin. simpl in Hin.
    apply in_app_or in Hin as [Hin | [[= <-] | []]]; [now apply H|].
    rewrite Truncation.length_slice_0 by lia. lia.
  - intros s0 H html Hin. destruct (stopInspecting_calls s0) as [Hc _].
    rewrite Hc in Hin. apply in_app_or in Hin as [Hin | Hin]; [now apply H|].
    destruct (wasPlayingRef s0); simpl in Hin; intuition discriminate.
  - intros doc e s0 H. now destruct (handleMouseOver_callsFrame doc e s0) as [-> _].
  - intros e s0 H. now destruct (handleMouseOut_callsFrame e s0) as [-> _].
  - intros s0 H. unfold handleToggleInspect.
    destruct (isInspecting s0) eqn:Hi.
    + intros html Hin. destruct (stopInspecting_calls s0) as [Hc _].
      rewrite Hc in Hin. apply in_app_or in Hin as [Hin | Hin]; [now apply H|].
      destruct (wasPlayingRef s0); simpl in Hin; intuition discriminate.
    + destruct (contentDocumentOf (replayIframe s0)); [|exact H].
      destruct (isPlaying s0); simpl; [|exact H].
      intros html Hin. apply in_app_or in Hin as [Hin | [Hin | []]];
        [now apply H | discriminate].
  - intros f playing newCallbacks s0 H. exact H.
  - intros s0 H. now destruct (commitEffect_callsFrame s0) as [-> _].
  - intros html [].
Qed.

Lemma modals_get_at_most_10000_witness :
  let s := step (DomEvent (IframeDocument 0)
                   (Examples.mouseEvent click (Some Examples.bigTable)))
             (step ClickButton (mount Examples.replayPage)) in
  reachable Examples.replayPage s /\ modalsWithin 10000 (calls s).
Proof.
  intros s.
  assert (reachable Examples.replayPage s) as Hreach
    by (unfold s; do 2 apply reachable_step; apply reachable_mount).
  split; [exact Hreach|].
  apply (@modals_get_at_most_10000 Examples.replayPage s Hreach).
Defined.

(** *** Selecting an element *)

Lemma run_reachable (p : page) (inputs : list input) (s : state) :
  reachable p s -> reachable p (run inputs s).
Proof.
  revert s. induction inputs as [|i inputs IH]; intros s H; simpl; [exact H|].
  apply IH. now apply reachable_step.
Qed.



Lemma settled_attached (p : page) (s : state) :
  settledInv p s -> isInspecting s = true ->
  exists doc run, effectCleanup s = Some (doc, run).
Proof.
  intros [[_ Hd] Hset _] Hi. rewrite Hset, Hi in Hd.
  destruct (effectCleanup s) as [[doc run]|]; [eauto | discriminate].
Qed.



(** *** Asking *)

Lemma truthy_trim (query : jsstring) :
  JS.truthy (JS.trim query) = negb (forallb JS.isWhiteSpace query).
Proof.
  pose proof (ModalProps.trim_all_white query) as H.
  destruct (JS.trim query) eqn:Ht; simpl.
  - now rewrite (proj2 H eq_refl).
  - destruct (forallb JS.isWhiteSpace query); [|reflexivity].
    now specialize (proj1 H eq_refl).
Qed.

(** Submitting the modal's form with a blank query calls nothing but
    [preventDefault]; with any other query it closes the modal and opens
    Seer Explorer on a new run, with the prompt built from the trimmed
    query and the modal's markup. Nothing else changes. *)
Theorem submit_asks_with_trimmed_query (html query : jsstring) (s : state) :
  (forallb JS.isWhiteSpace query = true ->
     submitModal html query s = (s |> log PreventDefault))
  /\ (forallb JS.isWhiteSpace query = false ->
        submitModal html query s
        = (s |> log PreventDefault |> log CloseModal
             |> log (OpenSeerExplorer true (buildSeerPrompt (JS.trim query) html)))).
Proof.
  unfold submitModal, ReplayInspectQueryModal.handleSubmit.
  rewrite truthy_trim.
  destruct (forallb JS.isWhiteSpace query); split; intros H; try discriminate;
    reflexivity.
Qed.

Lemma submit_asks_with_trimmed_query_witness :
  calls (submitModal (JS.lit "<b>hi</b>") (JS.lit "   ") (mount Examples.replayPage))
  = [PreventDefault]
  /\ calls (submitModal (JS.lit "<b>hi</b>") (JS.lit " why? ") (mount Examples.replayPage))
     = [PreventDefault; CloseModal;
        OpenSeerExplorer true (buildSeerPrompt (JS.lit "why?") (JS.lit "<b>hi</b>"))].
Proof.
  split.
  - rewrite (proj1 (submit_asks_with_trimmed_query (JS.lit "<b>hi</b>") (JS.lit "   ")
                      (mount Examples.replayPage)) eq_refl).
    reflexivity.
  - rewrite (proj2 (submit_asks_with_trimmed_query (JS.lit "<b>hi</b>") (JS.lit " why? ")
                      (mount Examples.replayPage)) eq_refl).
    reflexivity.
Defined.

Lemma prompt_of_captured (userQuery outer : jsstring) :
  buildSeerPrompt userQuery (JS.slice 0 10000 outer) = buildSeerPrompt userQuery outer.
Proof.
  pose proof (JSFacts.length_nonneg outer) as Hl.
  unfold buildSeerPrompt.
  rewrite Truncation.length_slice_0, Truncation.slice_0_slice_0 by lia.
  destruct (Z.gtb_spec (JS.length outer) 5000) as [H | H].
  - replace (Z.min 10000 (JS.length outer) >? 5000)%Z with true
      by (symmetry; apply Z.gtb_lt; lia). reflexivity.
  - replace (Z.min 10000 (JS.length outer) >? 5000)%Z with false
      by (symmetry; rewrite Z.gtb_ltb; apply Z.ltb_ge; lia).
    now rewrite JSFacts.slice_0_short by lia.
Qed.

(** From the click to the question: clicking an element while inspecting
    and then submitting a non-blank query in the modal this opens sends
    Seer Explorer the prompt built from the trimmed query and the
    element's [outerHTML], after the calls of the click. *)
Theorem select_then_ask
    (p : page) (s : state) (doc : document) (run : nat) (e : event) (target : node)
    (query : jsstring) :
  reachable p s ->
  effectCleanup s = Some (doc, run) ->
  e_type e = click ->
  e_target e = Some target ->
  target <> Body doc ->
  target <> DocumentElement doc ->
  forallb JS.isWhiteSpace query = false ->
  exists html,
    (exists before,
        calls (step (DomEvent (IframeDocument doc) e) s) = before ++ [OpenModal html])
    /\ calls (submitModal html query (step (DomEvent (IframeDocument doc) e) s))
       = calls (step (DomEvent (IframeDocument doc) e) s)
         ++ [PreventDefault; CloseModal;
             OpenSeerExplorer true
               (buildSeerPrompt (JS.trim query) (outerHTML s target))].
Proof.
  intros Hreach Hc Hty Ht Hbody Hroot Hq.
  exists (JS.slice 0 10000 (outerHTML s target)). split.
  - destruct (reachable_settled Hreach) as [Hinv _ _].
    assert (ignoredTarget doc (Some target) = false) as Hi.
    { simpl. apply orb_false_iff. split; now apply node_eqb_neq. }
    unfold step. simpl handle. rewrite (dispatch_at_inspected e Hinv Hc), Hty.
    destruct (commitEffect_callsFrame (handleClick doc e s)) as [C1 _].
    destruct (commitEffect_callsFrame (commitEffect (handleClick doc e s))) as [C2 _].
    unfold render. rewrite C2, C1.
    unfold handleClick. rewrite Ht, Hi.
    unfold handleElementSelected, openModal, log at 1. simpl. eauto.
  - unfold submitModal, ReplayInspectQueryModal.handleSubmit.
    rewrite truthy_trim, Hq. simpl.
    unfold onSubmit, log. simpl. rewrite prompt_of_captured, <- !app_assoc.
    reflexivity.
Qed.

Lemma select_then_ask_witness :
  let s := step ClickButton (mount Examples.replayPage) in
  let opened := step (DomEvent (IframeDocument 0)
                        (Examples.mouseEvent click (Some Examples.bigTable))) s in
  exists html,
    (exists before, calls opened = before ++ [OpenModal html])
    /\ calls (submitModal html (JS.lit " why? ") opened)
       = calls opened
         ++ [PreventDefault; CloseModal;
             OpenSeerExplorer true
               (buildSeerPrompt (JS.trim (JS.lit " why? "))
                  (outerHTML s Examples.bigTable))].
Proof.
  intros s opened.
  apply (@select_then_ask Examples.replayPage s 0 0
           (Examples.mouseEvent click (Some Examples.bigTable)) Examples.bigTable
           (JS.lit " why? "));
    try reflexivity; try discriminate.
  apply reachable_step, reachable_mount.
Defined.

(** *** Leaving inspection *)

(** Clicking the button while inspecting does what Escape does. *)
Theorem toggle_off_is_escape (p : page) (s : state) (e : event) :
  reachable p s ->
  isInspecting s = true ->
  e_type e = keydown ->
  e_key e = JS.lit "Escape" ->
  step ClickButton s = step (DomEvent ParentDocument e) s
  /\ step ClickButton s = render (stopInspecting s).
Proof.
  intros Hreach Hi Hty Hkey.
  pose proof (reachable_settled Hreach) as Hset.
  destruct (settled_attached Hset Hi) as (doc & run & Hc).
  destruct Hset as [Hinv _ _].
  unfold step. simpl handle.
  rewrite (dispatch_keydown e Hinv Hc (or_introl eq_refl) Hty).
  unfold handleToggleInspect, handleKeyDown. rewrite Hi, Hkey.
  replace (JS.eqb (JS.lit "Escape") (JS.lit "Escape")) with true by reflexivity.
  split; reflexivity.
Qed.

Lemma toggle_off_is_escape_witness :
  let s := step ClickButton (mount Examples.replayPage) in
  step ClickButton s = step (DomEvent ParentDocument (Examples.keyEvent "Escape")) s.
Proof.
  intros s.
  assert (reachable Examples.replayPage s) as Hreach
    by (apply reachable_step, reachable_mount).
  destruct (@toggle_off_is_escape Examples.replayPage s (Examples.keyEvent "Escape")
              Hreach eq_refl eq_refl eq_refl) as [H _].
  exact H.
Defined.

(** *** Playback across an inspection *)

Lemma flag_throughout (inputs : list input) (s : state) :
  wasPlayingRef s = true ->
  inspectingThroughout inputs s ->
  wasPlayingRef (run inputs s) = true /\ isInspecting (run inputs s) = true.
Proof.
  revert s. induction inputs as [|i inputs IH]; intros s Hw [Hi Hrest]; simpl.
  - auto.
  - apply IH; [|exact Hrest].
    apply wasPlaying_kept_while_inspecting; [exact Hw|].
    destruct inputs; apply Hrest.
Qed.

Lemma render_isPlaying (s : state) : isPlaying (render s) = isPlaying s.
Proof.
  assert (forall s0, isPlaying (commitEffect s0) = isPlaying s0) as H.
  { intros s0. unfold commitEffect, effect, cleanup.
    destruct (_ && _); [reflexivity|].
    destruct (effectCleanup s0) as [[doc run]|]; simpl;
      destruct (isInspecting s0); simpl;
      try destruct (contentDocumentOf (replayIframe s0)); reflexivity. }
  unfold render. now rewrite !H.
Qed.

Lemma render_callsFrame (s : state) : callsFrame s (render s).
Proof.
  destruct (commitEffect_callsFrame s) as [A1 A2].
  destruct (commitEffect_callsFrame (commitEffect s)) as [B1 B2].
  unfold render. split; congruence.
Qed.

(** An inspection switched on during playback pauses it, and however long
    the inspection lasts and whatever happens in it, Escape resumes
    playback. *)
Theorem playback_resumes_after_inspection
    (p : page) (s : state) (doc : document) (inputs : list input) (e : event) :
  reachable p s ->
  isInspecting s = false ->
  contentDocumentOf (replayIframe s) = Some doc ->
  isPlaying s = true ->
  inspectingThroughout inputs (step ClickButton s) ->
  e_type e = keydown ->
  e_key e = JS.lit "Escape" ->
  calls (step ClickButton s) = calls s ++ [TogglePlayPause false]
  /\ isPlaying (step ClickButton s) = false
  /\ calls (step (DomEvent ParentDocument e) (run inputs (step ClickButton s)))
     = calls (run inputs (step ClickButton s)) ++ [TogglePlayPause true]
  /\ isPlaying (step (DomEvent ParentDocument e) (run inputs (step ClickButton s)))
     = true
  /\ isInspecting (step (DomEvent ParentDocument e) (run inputs (step ClickButton s)))
     = false.
Proof.
  intros Hreach Hi Hdoc Hp Hthrough Hty Hkey.
  destruct (handleToggleInspect_pauses s Hi Hdoc) as (_ & T2 & _ & T4).
  destruct (playing_before_inspection_is_flagged s Hi Hdoc Hp) as [_ Hflag].
  destruct (@flag_throughout inputs _ Hflag Hthrough) as [Hw Hi'].
  set (s1 := run inputs (step ClickButton s)) in *.
  assert (reachable p s1) as Hreach1
    by (apply run_reachable; now apply reachable_step).
  pose proof (reachable_settled Hreach1) as Hset.
  destruct (settled_attached Hset Hi') as (d & r & Hc).
  destruct Hset as [Hinv _ _].
  split; [|split].
  - unfold step at 1. simpl handle.
    destruct (render_callsFrame (handleToggleInspect s)) as [-> _].
    now rewrite T2, Hp.
  - unfold step. simpl handle. now rewrite render_isPlaying.
  - assert (step (DomEvent ParentDocument e) s1 = render (stopInspecting s1)) as ->.
    { unfold step. simpl handle.
      rewrite (dispatch_keydown e Hinv Hc (or_introl eq_refl) Hty).
      unfold handleKeyDown. rewrite Hkey.
      now replace (JS.eqb (JS.lit "Escape") (JS.lit "Escape")) with true by reflexivity. }
    destruct (stopInspecting_spec s1) as (S1 & _ & _ & _ & S5 & S6 & _).
    destruct (render_callsFrame (stopInspecting s1)) as [-> _].
    rewrite render_isPlaying, S5, S6, Hw.
    repeat split.
    destruct (render_keepsFlag (stopInspecting s1)) as [R _]. now apply R.
Qed.

Lemma playback_resumes_after_inspection_witness :
  let s := mount Examples.replayPage in
  let hover := DomEvent (IframeDocument 0)
                 (Examples.mouseEvent mouseover (Some Examples.saveButton)) in
  let leave := DomEvent (IframeDocument 0)
                 (Examples.mouseEvent mouseout (Some Examples.saveButton)) in
  let s1 := run [hover; leave; hover] (step ClickButton s) in
  calls (step ClickButton s) = [TogglePlayPause false]
  /\ isPlaying (step ClickButton s) = false
  /\ calls (step (DomEvent ParentDocument (Examples.keyEvent "Escape")) s1)
     = calls s1 ++ [TogglePlayPause true]
  /\ isPlaying (step (DomEvent ParentDocument (Examples.keyEvent "Escape")) s1) = true
  /\ isInspecting (step (DomEvent ParentDocument (Examples.keyEvent "Escape")) s1) = false.
Proof.
  intros s hover leave s1.
  apply (@playback_resumes_after_inspection Examples.replayPage s 0
           [hover; leave; hover] (Examples.keyEvent "Escape"));
    try reflexivity.
  - apply reachable_mount.
  - vm_compute. auto.
Defined.

(** *** The cursor *)

Lemma keepsCursor_refl (s : state) : keepsCursor s s.
Proof. split; auto. Qed.

Lemma keepsCursor_trans (s1 s2 s3 : state) :
  keepsCursor s1 s2 -> keepsCursor s2 s3 -> keepsCursor s1 s3.
Proof.
  intros [A1 [A2 | A2]] [B1 B2]; split; auto.
  destruct B2 as [B2 | B2]; [left; congruence | auto].
Qed.

Lemma stopInspecting_keepsCursor (s : state) : keepsCursor s (stopInspecting s).
Proof. destruct (stopInspecting_spec s) as (H & _). split; auto. Qed.

Lemma callHandler_keepsCursor (cb : callback) (e : event) (s : state) :
  keepsCursor s (callHandler cb e s).
Proof.
  destruct cb as [[] doc run | id]; simpl; try apply keepsCursor_refl.
  - unfold handleMouseOver. destruct (e_target e); [|apply keepsCursor_refl].
    destruct (ignoredTarget _ _); [apply keepsCursor_refl|].
    unfold cleanupHighlight. destruct (previousHighlightRef s); split; simpl; auto.
  - unfold handleMouseOut, cleanupHighlight.
    destruct (target_eqb _ _); [|apply keepsCursor_refl].
    destruct (previousHighlightRef s); split; simpl; auto.
  - unfold handleClick. cbv zeta.
    destruct (e_target e); [|split; simpl; auto].
    destruct (ignoredTarget _ _); [split; simpl; auto|].
    unfold handleElementSelected, openModal.
    destruct (stopInspecting_spec
                (s |> log PreventDefault |> log StopPropagation
                   |> log StopImmediatePropagation)) as (H & _).
    split; simpl; auto.
  - unfold handleKeyDown.
    destruct (JS.eqb _ _); [apply stopInspecting_keepsCursor | apply keepsCursor_refl].
Qed.

Lemma dispatchEvent_keepsCursor (t : eventTarget) (e : event) (s : state) :
  keepsCursor s (dispatchEvent t e s).
Proof.
  unfold dispatchEvent. generalize (listeners s) as ls. intros ls. revert s.
  induction ls as [|l ls IH]; intros s; simpl; [apply keepsCursor_refl|].
  eapply keepsCursor_trans; [|apply IH].
  destruct (_ && _); [apply callHandler_keepsCursor | apply keepsCursor_refl].
Qed.

Lemma handle_hostFrame (i : input) (s : state) : hostFrame s (handle i s).
Proof.
  destruct i as [| t e | f playing newCallbacks]; simpl.
  - apply handleToggleInspect_frame.
  - apply dispatchEvent_frame.
  - now split.
Qed.

(** While inspecting, the body of the inspected document shows the
    crosshair cursor. *)
Theorem crosshair_while_inspecting (p : page) (s : state) :
  reachable p s ->
  isInspecting s = true ->
  exists doc run,
    effectCleanup s = Some (doc, run) /\ bodyCursor s doc = JS.lit "crosshair".
Proof.
  induction 1 as [| i s Hreach IH]; [discriminate|].
  destruct (reachable_settled Hreach) as [Hinv Hset Hch].
  pose proof (attachedInv_frame (handle_hostFrame i s) Hinv) as Hinv1.
  destruct (handle_hostFrame i s) as [_ Fc Fd _].
  unfold step.
  destruct (render_cases Hinv1) as [Hdep' Hch' | Hi' | doc Hi' Hdoc | Hi' Hdoc];
    simpl; intros Hi1; [| congruence | | discriminate].
  - assert (isInspecting s = true) as Hi by congruence.
    destruct (IH Hi) as (doc & run & Hc & Hcur).
    exists doc, run. split; [congruence|].
    assert (bodyCursor (handle i s) = bodyCursor s \/ isInspecting (handle i s) = false)
      as [-> | Hoff]; [| exact Hcur | congruence].
    destruct i as [| t e | f playing newCallbacks]; simpl.
    + unfold handleToggleInspect. rewrite Hi.
      right. apply stopInspecting_spec.
    + apply dispatchEvent_keepsCursor.
    + now left.
  - exists doc, (nextRun (handle i s)). split; [reflexivity|].
    unfold upd. now rewrite Nat.eqb_refl.
Qed.

Lemma crosshair_while_inspecting_witness :
  let s := run [ClickButton;
                DomEvent (IframeDocument 0)
                  (Examples.mouseEvent mouseover (Some Examples.saveButton))]
             (mount Examples.replayPage) in
  exists doc run,
    effectCleanup s = Some (doc, run) /\ bodyCursor s doc = JS.lit "crosshair".
Proof.
  intros s.
  apply (@crosshair_while_inspecting Examples.replayPage s).
  - do 2 apply reachable_step. apply reachable_mount.
  - reflexivity.
Defined.

(** *** What the button shows *)

(** The button is drawn as primary, and the tooltip tells how to cancel,
    exactly while the five listeners are attached; otherwise the button is
    drawn as default, the tooltip invites to inspect, and none of the
    component's listeners is registered. *)
Theorem button_shows_whether_listening
    (p : page) (s : state) (t : jsstring -> jsstring) :
  reachable p s ->
  match buttonPriority s with
  | primary =>
      tooltipTitle t s
      = t (JS.lit "Click an element in the replay, or press Escape to cancel")
      /\ exists doc run, filter ownListener (listeners s) = effectListeners doc run
  | default =>
      tooltipTitle t s = t (JS.lit "Inspect element and ask Seer")
      /\ filter ownListener (listeners s) = []
  end.
Proof.
  intros Hreach. pose proof (reachable_settled Hreach) as Hset.
  assert (filter ownListener (map foreignListener (p_listeners p)) = []) as Hforeign.
  { induction (p_listeners p) as [|[[[a b] c] d] ls IH]; [reflexivity | exact IH]. }
  unfold buttonPriority, tooltipTitle.
  destruct (isInspecting s) eqn:Hi.
  - split; [reflexivity|].
    destruct (settled_attached Hset Hi) as (doc & run & Hc).
    destruct Hset as [[Hls _] _ _]. exists doc, run.
    rewrite Hls, Hc, filter_app, Hforeign. reflexivity.
  - split; [reflexivity|].
    destruct Hset as [[Hls Hd] Hdep _]. rewrite Hdep, Hi in Hd.
    destruct (effectCleanup s); [discriminate|].
    rewrite Hls, filter_app, Hforeign. reflexivity.
Qed.

Lemma button_shows_whether_listening_witness :
  let s := step ClickButton (mount Examples.replayPage) in
  buttonPriority s = primary
  /\ exists doc run, filter ownListener (listeners s) = effectListeners doc run.
Proof.
  intros s. split; [reflexivity|].
  apply (@button_shows_whether_listening Examples.replayPage s (fun x => x)).
  apply reachable_step, reachable_mount.
Defined.

End ButtonSessions.
